(** * stock-bot: the analysis and ranking pipeline of [main.py]

    A shallow embedding of [analyze_stock], [plot_stock],
    [suggest_best_trade] and the loop of [main], together with the pandas
    operations they call, and the properties of the specification that
    concern them.

    Numbers are IEEE-754 binary64 values (Rocq's primitive [float]), as the
    numpy [float64] columns of the program are; a missing value is [nan].
    A [DataFrame] is a mutable object: frames live in a store and the
    program handles references to them, so that the in-place column
    assignments of [analyze_stock] and the [.copy()] of [main] are visible. *)

From Stdlib Require Import ZArith List String Floats Lia Bool Uint63.
From stdpp Require Import base gmap strings list sorting.

Set Warnings "-inexact-float".

(** ** pandas: series *)

Module Pandas.

(** A float64 column, oldest value first. *)
Abbreviation Series := (list float).

Definition notna (x : float) : bool := negb (is_nan x).

(** [Series.shift(1)]: every value moves one row down, the first row is
    missing and the length is kept. *)
Definition shift (s : Series) : Series := take (length s) (nan :: s).

(** [Series.ffill()]: a missing value takes the last value seen before it;
    leading missing values stay missing. *)
Fixpoint ffill_from (prev : float) (s : Series) : Series :=
  match s with
  | [] => []
  | x :: r => let v := if is_nan x then prev else x in v :: ffill_from v r
  end.

Definition ffill (s : Series) : Series := ffill_from nan s.

(** The default of [fill_method] in [pct_change] depends on the pandas
    release: forward fill ("pad") before 3.0, no filling from 3.0 on. *)
Inductive fill_method := Pad | NoFill.

Definition filled (fm : fill_method) (s : Series) : Series :=
  match fm with Pad => ffill s | NoFill => s end.

(** [Series.pct_change()]: [data / data.shift(1) - 1], elementwise. *)
Definition pct_change (fm : fill_method) (s : Series) : Series :=
  let data := filled fm s in
  (λ q, q - 1)%float <$> zip_with PrimFloat.div data (shift data).

(** [series * k] *)
Definition scale (k : float) (s : Series) : Series := (λ x, x * k)%float <$> s.

(** The rows of the window of width [w] that ends at row [i]. *)
Definition window_at (w : nat) (s : Series) (i : nat) : list float :=
  drop (S i - w) (take (S i) s).

(** [Rolling._prep_values]: an infinite value goes to the window functions
    as a missing one. *)
Definition prep_value (x : float) : float := if is_infinity x then nan else x.

(** The running state of [roll_mean] (pandas 1.5 and later,
    [_libs/window/aggregations.pyx]): the number of values present in the
    window and of those with the sign bit set, the compensated sum with the
    two compensation terms of Kahan's summation, and the length of the run
    of equal values that ends at the last value added. *)
Record mean_state := mkMean {
  nobs : Z;
  neg_ct : Z;
  sum_x : float;
  compensation_add : float;
  compensation_remove : float;
  num_consecutive_same_value : Z;
  prev_value : float
}.

(** [add_mean]: a value enters the window; a missing one changes nothing. *)
Definition add_mean (val : float) (st : mean_state) : mean_state :=
  if is_nan val then st
  else
    let y := (val - compensation_add st)%float in
    let t := (sum_x st + y)%float in
    mkMean (nobs st + 1)
      (if get_sign val then neg_ct st + 1 else neg_ct st)
      t
      (t - sum_x st - y)%float
      (compensation_remove st)
      (if (val =? prev_value st)%float
       then num_consecutive_same_value st + 1 else 1)
      val.

(** [remove_mean]: a value leaves the window. *)
Definition remove_mean (val : float) (st : mean_state) : mean_state :=
  if is_nan val then st
  else
    let y := (- val - compensation_remove st)%float in
    let t := (sum_x st + y)%float in
    mkMean (nobs st - 1)
      (if get_sign val then neg_ct st - 1 else neg_ct st)
      t
      (compensation_add st)
      (t - sum_x st - y)%float
      (num_consecutive_same_value st)
      (prev_value st).

Definition float_of_Z (n : Z) : float := of_uint63 (Uint63.of_Z n).

(** [calc_mean]: missing below [minp] values; otherwise the sum over the
    number of values, replaced by the value itself when the window holds
    one value repeated, and by zero when its sign contradicts the signs of
    the values. *)
Definition calc_mean (minp : Z) (st : mean_state) : float :=
  if (minp <=? nobs st)%Z && (0 <? nobs st)%Z then
    let result := (sum_x st / float_of_Z (nobs st))%float in
    if (nobs st <=? num_consecutive_same_value st)%Z then prev_value st
    else if (neg_ct st =? 0)%Z && (result <? 0)%float then 0%float
    else if (neg_ct st =? nobs st)%Z && (0 <? result)%float then 0%float
    else result
  else nan.

(** One turn of the loop of [roll_mean] on the bounds of a fixed window
    wider than one row, which move by one row at a time: the row that leaves
    the window, if there is one, is removed and row [i] is added. *)
Definition roll_step (w : nat) (values : Series) (st : mean_state) (i : nat)
    : mean_state :=
  let st := if (w <=? i)%nat then remove_mean (nth (i - w) values nan) st
            else st in
  add_mean (nth i values nan) st.

Fixpoint roll_states (w : nat) (values : Series) (st : mean_state)
    (rows : list nat) : list mean_state :=
  match rows with
  | [] => []
  | i :: rest =>
      let st' := roll_step w values st i in
      st' :: roll_states w values st' rest
  end.

(** [roll_mean]: the state is set up at the first row and carried from row
    to row; every row gets the mean of its state. *)
Definition roll_mean (w : nat) (minp : Z) (values : Series) : Series :=
  let setup := mkMean 0 0 0 0 0 0 (nth 0 values nan) in
  calc_mean minp <$> roll_states w values setup (seq 0 (length values)).

(** [Series.rolling(window=w).mean()], with [min_periods] at its default,
    the window width. *)
Definition rolling_mean (w : nat) (s : Series) : Series :=
  roll_mean w (Z.of_nat w) (prep_value <$> s).

(** [Series.tail(n)] *)
Definition tail (n : nat) (s : Series) : Series := drop (length s - n) s.

(** [(series > 0).sum()]: the number of rows whose value is greater than
    zero, an int64. *)
Definition count_positive (s : Series) : Z :=
  Z.of_nat (length (List.filter (λ x, 0 <? x)%float s)).

(** ** pandas: frames in the store *)

(** A frame: the date index (days) and the named columns. *)
Record DataFrame := mkFrame {
  index : list Z;
  columns : gmap string Series
}.

(** A row taken out of a frame ([df.iloc[i]]): a value per column. *)
Abbreviation Row := (gmap string float).

Definition loc := positive.

Inductive exn :=
| KeyError (key : string)
| IndexError
| NoSuchObject.

Inductive result (A : Type) :=
| Ok (a : A)
| Raise (e : exn).
Arguments Ok {A} a.
Arguments Raise {A} e.

(** A Python computation: it runs in a store of frames, returns a value or
    raises, and leaves a store behind in both cases. *)
Definition Py (A : Type) : Type := gmap loc DataFrame → result A * gmap loc DataFrame.

Definition ret {A} (a : A) : Py A := λ h, (Ok a, h).

Definition raise {A} (e : exn) : Py A := λ h, (Raise e, h).

Definition bind {A B} (m : Py A) (k : A → Py B) : Py B :=
  λ h, match m h with
       | (Ok a, h') => k a h'
       | (Raise e, h') => (Raise e, h')
       end.

Definition lift {A} (r : result A) : Py A := λ h, (r, h).

(** Dereference; a reference the program holds is always in the store, the
    [NoSuchObject] case only makes the function total. *)
Definition deref (l : loc) : Py DataFrame :=
  λ h, match h !! l with
       | Some df => (Ok df, h)
       | None => (Raise NoSuchObject, h)
       end.

Definition store (l : loc) (df : DataFrame) : Py unit :=
  λ h, (Ok tt, <[l := df]> h).

(** A new object, at a reference that is not in use. *)
Definition alloc (df : DataFrame) : Py loc :=
  λ h, let l := fresh (dom h) in (Ok l, <[l := df]> h).

Definition set_column (df : DataFrame) (c : string) (s : Series) : DataFrame :=
  mkFrame (index df) (<[c := s]> (columns df)).

(** [df.iloc[-1]] on the frame itself. *)
Definition last_row (df : DataFrame) : result Row :=
  match index df with
  | [] => Raise IndexError
  | _ => Ok ((λ s : Series, List.last s nan) <$> columns df)
  end.

End Pandas.
Export Pandas.

Declare Scope py_scope.
Delimit Scope py_scope with py.
Notation "x <- m ;; k" := (bind m (λ x, k))
  (at level 100, m at next level, right associativity) : py_scope.
Notation "m ;;; k" := (bind m (λ _, k))
  (at level 100, right associativity) : py_scope.

(** [df[c]] *)
Definition df_getitem (l : loc) (c : string) : Py Series :=
  (df <- deref l ;;
   match columns df !! c with
   | Some s => ret s
   | None => raise (KeyError c)
   end)%py.

(** [df[c] = s] for a series on the frame's own index: the column is
    replaced, or added when the frame has none of that name. *)
Definition df_setitem (l : loc) (c : string) (s : Series) : Py unit :=
  (df <- deref l ;; store l (set_column df c s))%py.

(** [df.copy()] *)
Definition df_copy (l : loc) : Py loc :=
  (df <- deref l ;; alloc df)%py.

(** [df.iloc[-1]] *)
Definition df_iloc_last (l : loc) : Py Row :=
  (df <- deref l ;; lift (last_row df))%py.

(** [row[c]] *)
Definition row_getitem (r : Row) (c : string) : Py float :=
  match r !! c with
  | Some x => ret x
  | None => raise (KeyError c)
  end.

(** ** Python: [sorted] *)

(** [x] goes behind every element that is not greater than it. *)
Fixpoint insert_by {A} (lt : A → A → bool) (x : A) (l : list A) : list A :=
  match l with
  | [] => [x]
  | y :: l' => if lt x y then x :: y :: l' else y :: insert_by lt x l'
  end.

(** A stable ascending sort that compares with [<] only, as [list.sort]
    does: the elements are taken from left to right and each one is put
    behind the elements already placed that are not greater. CPython finds
    the place by binary search and merges long runs; on keys that [<]
    orders a stable sort is determined by its input, and the choice of the
    ranker is the same for every such sort ([sorted_stable],
    [stable_descending_head]). Where [<] does not order the keys, a missing
    return among candidates of one trend score, CPython can return another
    order than this list; the properties of the ranking below are stated on
    keys that are ordered, or hold for every rearrangement of the input. *)
Definition stable_sort {A} (lt : A → A → bool) (l : list A) : list A :=
  fold_left (λ acc x, insert_by lt x acc) l [].

(** [sorted(l, key=key, reverse=reverse)]: with [reverse] the list is
    reversed, sorted and reversed again, which keeps equal keys in their
    order of the input. *)
Definition sorted {A K} (key : A → K) (lt : K → K → bool) (reverse : bool)
    (l : list A) : list A :=
  let by_key a b := lt (key a) (key b) in
  if reverse then rev (stable_sort by_key (rev l)) else stable_sort by_key l.

(** [<] on the pairs [(int, float)]: the first components that are not [==]
    decide. *)
Definition tuple_lt (k1 k2 : Z * float) : bool :=
  if negb (k1.1 =? k2.1)%Z then (k1.1 <? k2.1)%Z
  else if negb (k1.2 =? k2.2)%float then (k1.2 <? k2.2)%float
  else false.

(** ** The program *)

(** The dict that [analyze_stock] returns. *)
Record Analysis := mkAnalysis {
  Ticker : string;
  Last_Close : float;
  Last_Return : float;
  SMA_5_Day : float;
  Trend_Score : Z;
  Trade_Signal : bool;
  Reason : string
}.

Section Program.

(** What [pct_change()] does with missing values by default. *)
Variable fm : fill_method.

Definition analyze_stock (ticker : string) (df : loc) : Py Analysis :=
  (adj <- df_getitem df "Adj Close" ;;
   df_setitem df "Daily Return %" (scale 100 (pct_change fm adj)) ;;;
   adj <- df_getitem df "Adj Close" ;;
   df_setitem df "SMA_5" (rolling_mean 5 adj) ;;;
   latest <- df_iloc_last df ;;
   last_return <- row_getitem latest "Daily Return %" ;;
   last_close <- row_getitem latest "Adj Close" ;;
   sma5 <- row_getitem latest "SMA_5" ;;
   returns <- df_getitem df "Daily Return %" ;;
   let trend_score := count_positive (tail 5 returns) in
   let '(trade_signal, reason) :=
     if (sma5 <? last_close)%float && (0 <? last_return)%float
     then (true, "Price above 5-day SMA with positive momentum"%string)
     else (false, "No strong bullish signal"%string) in
   ret (mkAnalysis ticker last_close last_return sma5 trend_score
          trade_signal reason))%py.

(** [plot_stock] draws the two columns it reads into a file; the drawing is
    outside the model, the reads are not. *)
Definition plot_stock (ticker : string) (df : loc) : Py unit :=
  (_ <- df_getitem df "Adj Close" ;;
   _ <- df_getitem df "SMA_5" ;;
   ret tt)%py.

(** What [suggest_best_trade] reports: it prints one of two messages. *)
Inductive suggestion :=
| NoCandidate
| BestCandidate (best : Analysis).

(** The key of the ranking, [(x['Trend Score'], x['Last Return %'])]. *)
Definition sort_key (a : Analysis) : Z * float := (Trend_Score a, Last_Return a).

(** [sorted(...)[0]] raises [IndexError] on an empty list; the candidates
    are not empty where it is evaluated. *)
Definition suggest_best_trade (analyses : list Analysis) : result suggestion :=
  let candidates := List.filter Trade_Signal analyses in
  match candidates with
  | [] => Ok NoCandidate
  | _ =>
      match sorted sort_key tuple_lt true candidates with
      | best :: _ => Ok (BestCandidate best)
      | [] => Raise IndexError
      end
  end.

(** The loop of [main] over the tickers; [raw_data] gives the frame fetched
    for a ticker, [all_analyses] is the list the loop appends to. *)
Fixpoint analyze_all (raw_data : gmap string loc) (tickers : list string)
    (all_analyses : list Analysis) : Py (list Analysis) :=
  match tickers with
  | [] => ret all_analyses
  | ticker :: rest =>
      match raw_data !! ticker with
      | Some raw =>
          (df <- df_copy raw ;;
           analysis <- analyze_stock ticker df ;;
           plot_stock ticker df ;;;
           analyze_all raw_data rest (all_analyses ++ [analysis]))%py
      | None => analyze_all raw_data rest all_analyses
      end
  end.

(** [main], from the fetched ticker list and price data on: the analyses
    that go to the CSV file and the suggestion that is printed. *)
Definition main (fetched : list string) (raw_data : gmap string loc)
    : Py (list Analysis * suggestion) :=
  let tickers := take 20 fetched in
  (all_analyses <- analyze_all raw_data tickers [] ;;
   best <- lift (suggest_best_trade all_analyses) ;;
   ret (all_analyses, best))%py.

End Program.

(** ** The indicator rows of a frame *)

Record IndicatorRow := mkRow {
  date : Z;
  adjusted_close : float;
  daily_return_pct : float;
  trailing_avg_5 : float
}.

(** The rows of an analysed frame, when it has the three columns. *)
Definition indicator_rows (df : DataFrame) : option (list IndicatorRow) :=
  adj ← columns df !! "Adj Close";
  r ← columns df !! "Daily Return %";
  m ← columns df !! "SMA_5";
  Some (zip_with (λ '(d, c) '(x, y), mkRow d c x y)
          (zip (index df) adj) (zip r m)).

(** A frame with the single column [Adj Close]. *)
Definition price_frame (closes : list float) : DataFrame :=
  mkFrame (Z.of_nat <$> seq 0 (length closes)) {[ "Adj Close" := closes ]}.

Definition closes_example : list float := [10; 11; 9; 12; 13; 14]%float.

(** ** What [analyze_stock] computes, as functions of the price column *)

Definition returns_of (fm : fill_method) (adj : Series) : Series :=
  scale 100 (pct_change fm adj).

Definition analysed_frame (fm : fill_method) (df : DataFrame) (adj : Series)
    : DataFrame :=
  set_column (set_column df "Daily Return %" (returns_of fm adj))
    "SMA_5" (rolling_mean 5 adj).

Definition analysis_of (fm : fill_method) (ticker : string) (adj : Series)
    : Analysis :=
  let last_return := List.last (returns_of fm adj) nan in
  let last_close := List.last adj nan in
  let sma5 := List.last (rolling_mean 5 adj) nan in
  let bullish := (sma5 <? last_close)%float && (0 <? last_return)%float in
  mkAnalysis ticker last_close last_return sma5
    (count_positive (tail 5 (returns_of fm adj))) bullish
    (if bullish then "Price above 5-day SMA with positive momentum"
     else "No strong bullish signal").

(** The price series of the frame at a reference: its dates and closes. *)
Definition price_series (h : gmap loc DataFrame) (l : loc)
    : option (list Z * option Series) :=
  df ← h !! l; Some (index df, columns df !! "Adj Close").

(** Binary64 values by class. *)
Definition sf_nan (x : spec_float) : bool :=
  match x with S754_nan => true | _ => false end.

Definition is_zero (x : float) : bool := (x =? 0)%float.

(** The order of the ranking on the keys: the trend score first, the last
    return among equal scores. *)
Definition key_lt (k1 k2 : Z * float) : bool :=
  (k1.1 <? k2.1)%Z || ((k1.1 =? k2.1)%Z && (k1.2 <? k2.2)%float).

Definition key_le (k1 k2 : Z * float) : bool :=
  (k1.1 <? k2.1)%Z || ((k1.1 =? k2.1)%Z && (k1.2 <=? k2.2)%float).

(** Keys that [==] compares equal. *)
Definition key_eq (k1 k2 : Z * float) : bool :=
  (k1.1 =? k2.1)%Z && (k1.2 =? k2.2)%float.

(** A record that carries a signal has a return that is a number. *)
Definition comparable (a : Analysis) : Prop :=
  Trade_Signal a = true → is_nan (Last_Return a) = false.

(** The comparison that [sorted] makes between two records. *)
Definition by_key (a b : Analysis) : bool := tuple_lt (sort_key a) (sort_key b).

(** The references of the fetched data are references of the store. *)
Definition raw_valid (raw_data : gmap string loc) (h : gmap loc DataFrame) : Prop :=
  ∀ ticker l, raw_data !! ticker = Some l → is_Some (h !! l).

(** The analysis of the frame fetched for a ticker, when it has one. *)
Definition fetched_analysis (fm : fill_method) (raw_data : gmap string loc)
    (h : gmap loc DataFrame) (ticker : string) : option Analysis :=
  l ← raw_data !! ticker;
  df ← h !! l;
  adj ← columns df !! "Adj Close";
  Some (analysis_of fm ticker adj).

(** ** Example data *)

Definition heap_example : gmap loc DataFrame :=
  {[ 1%positive := price_frame closes_example ]}.

Definition analysis_example : Analysis :=
  mkAnalysis "T" 14 7.6923076923076872 11.8 4 true
    "Price above 5-day SMA with positive momentum".

(** Three bars only. *)
Definition heap_short : gmap loc DataFrame :=
  {[ 1%positive := price_frame [10; 11; 12]%float ]}.

Definition analysis_short : Analysis :=
  mkAnalysis "S" 12 ((12 / 11 - 1) * 100) nan 2 false "No strong bullish signal".

(** A close of zero before the last bar. *)
Definition heap_zero : gmap loc DataFrame :=
  {[ 1%positive := price_frame [0; 1]%float ]}.

Definition analysis_zero : Analysis :=
  mkAnalysis "Z" 1 infinity nan 1 false "No strong bullish signal".

(** Records for the ranking: A is behind B on the trend score, C has the key
    of B and no signal, D has the key of B, a signal, and comes after B. *)
Definition rec_A : Analysis := mkAnalysis "A" 50 2 49 3 true "".
Definition rec_B : Analysis := mkAnalysis "B" 50 1 49 4 true "".
Definition rec_C : Analysis := mkAnalysis "C" 50 1 51 4 false "".
Definition rec_D : Analysis := mkAnalysis "D" 50 1 49 4 true "".

Definition ranker_example : list Analysis := [rec_A; rec_B; rec_C].

(** ** Frames and runs as a whole *)

(** Every column has a value per row of the index, as pandas keeps it. *)
Definition well_formed (df : DataFrame) : Prop :=
  ∀ c s, columns df !! c = Some s → length s = length (index df).

(** The exception that [analyze_stock] raises on a frame, if any. *)
Definition frame_error (df : DataFrame) : option exn :=
  match columns df !! "Adj Close" with
  | None => Some (KeyError "Adj Close")
  | Some _ => match index df with [] => Some IndexError | _ => None end
  end.

(** The exception that the loop of [main] meets first, if any. *)
Fixpoint first_error (raw_data : gmap string loc) (h : gmap loc DataFrame)
    (tickers : list string) : option exn :=
  match tickers with
  | [] => None
  | ticker :: rest =>
      match raw_data !! ticker with
      | None => first_error raw_data h rest
      | Some l =>
          match h !! l with
          | None => Some NoSuchObject
          | Some df =>
              match frame_error df with
              | Some e => Some e
              | None => first_error raw_data h rest
              end
          end
      end
  end.

(** [ticker in raw_data] *)
Definition has_data (raw_data : gmap string loc) (ticker : string) : bool :=
  match raw_data !! ticker with Some _ => true | None => false end.

(** Frames for the edge cases: no price column, no rows. *)
Definition frame_no_price : DataFrame :=
  mkFrame [0; 1]%Z {[ "Close" := [10; 11]%float ]}.

Definition frame_no_rows : DataFrame := mkFrame [] {[ "Adj Close" := [] ]}.

(** * Properties *)

(** ** Binary64 comparisons and special values *)

Ltac sf_cases :=
  repeat match goal with
  | |- context [PosDef.Pos.compare_cont Eq ?a ?b] =>
      change (PosDef.Pos.compare_cont Eq a b) with (Pos.compare a b)
  | H : context [PosDef.Pos.compare_cont Eq ?a ?b] |- _ =>
      change (PosDef.Pos.compare_cont Eq a b) with (Pos.compare a b) in H
  end;
  repeat match goal with
  | |- context [Z.compare ?a ?b] =>
      destruct (Z.compare_spec a b); cbn [CompOpp] in *
  | H : context [Z.compare ?a ?b] |- _ =>
      destruct (Z.compare_spec a b); cbn [CompOpp] in *
  | |- context [Pos.compare ?a ?b] =>
      destruct (Pos.compare_spec a b); cbn [CompOpp] in *
  | H : context [Pos.compare ?a ?b] |- _ =>
      destruct (Pos.compare_spec a b); cbn [CompOpp] in *
  end;
  try discriminate; try reflexivity; try lia.

Section SpecFloatOrder.

Implicit Types x y z : spec_float.

Lemma SFltb_irrefl x : SFltb x x = false.
Proof.
  unfold SFltb. destruct x as [[]|[]| |[] m e]; cbn [SFcompare]; sf_cases.
Qed.

Lemma SFltb_asym x y : SFltb x y = true → SFltb y x = false.
Proof.
  unfold SFltb.
  destruct x as [[]|[]| |[] m1 e1], y as [[]|[]| |[] m2 e2]; cbn [SFcompare];
    intros H; sf_cases.
Qed.

(** Of three values the middle one of which is a number, the first is
    below the last only if it is below the middle one or the middle one is
    below the last. *)
Lemma SFltb_neg_trans x y z :
  sf_nan y = false → SFltb x y = false → SFltb y z = false → SFltb x z = false.
Proof.
  unfold SFltb.
  destruct x as [[]|[]| |[] m1 e1], y as [[]|[]| |[] m2 e2],
           z as [[]|[]| |[] m3 e3];
    cbn [SFcompare sf_nan]; intros Hy H1 H2;
    try discriminate; try reflexivity; sf_cases.
Qed.

Lemma SFeqb_ltb x y : SFeqb x y = true → SFltb x y = false.
Proof. unfold SFeqb, SFltb. destruct (SFcompare x y) as [[]|]; done. Qed.

Lemma SFeqb_sym x y : SFeqb x y = SFeqb y x.
Proof.
  unfold SFeqb.
  destruct x as [[]|[]| |[] m1 e1], y as [[]|[]| |[] m2 e2]; cbn [SFcompare];
    sf_cases.
Qed.

Lemma SFeqb_refl x : SFeqb x x = negb (sf_nan x).
Proof.
  unfold SFeqb.
  destruct x as [[]|[]| |[] m e]; cbn [SFcompare sf_nan negb]; sf_cases.
Qed.

Lemma SFltb_not_nan x y : SFltb x y = true → sf_nan x = false ∧ sf_nan y = false.
Proof.
  unfold SFltb.
  destruct x as [[]|[]| |[] m1 e1], y as [[]|[]| |[] m2 e2]; cbn; done.
Qed.

Lemma SFeqb_zero x : SFeqb x (S754_zero false) = true → ∃ s, x = S754_zero s.
Proof.
  unfold SFeqb. destruct x as [s|[]| |[] m e]; cbn; try done. by exists s.
Qed.

Lemma SFltb_eqb x y : SFltb x y = true → SFeqb x y = false.
Proof. unfold SFeqb, SFltb. destruct (SFcompare x y) as [[]|]; done. Qed.


Lemma SFltb_false_leb x y :
  sf_nan x = false → sf_nan y = false → SFltb x y = false → SFleb y x = true.
Proof.
  unfold SFleb, SFltb.
  destruct x as [[]|[]| |[] m1 e1], y as [[]|[]| |[] m2 e2];
    cbn [SFcompare sf_nan]; intros Hx Hy H; sf_cases.
Qed.

Lemma SFltb_leb x y : SFltb x y = true → SFleb y x = false.
Proof.
  unfold SFleb, SFltb.
  destruct x as [[]|[]| |[] m1 e1], y as [[]|[]| |[] m2 e2]; cbn [SFcompare];
    intros H; sf_cases.
Qed.

Lemma SFleb_antisym x y : SFleb x y = true → SFleb y x = true → SFeqb x y = true.
Proof.
  unfold SFleb, SFeqb.
  destruct x as [[]|[]| |[] m1 e1], y as [[]|[]| |[] m2 e2]; cbn [SFcompare];
    intros H1 H2; sf_cases.
Qed.

Lemma SFeqb_class x y k :
  SFeqb x k = true → SFeqb y k = true → SFltb x y = false.
Proof.
  unfold SFltb, SFeqb.
  destruct x as [[]|[]| |[] m1 e1], y as [[]|[]| |[] m2 e2],
           k as [[]|[]| |[] m3 e3];
    cbn [SFcompare]; intros H1 H2; try discriminate; try reflexivity; sf_cases.
Qed.

End SpecFloatOrder.

Section FloatFacts.

Implicit Types x y z : float.
Local Open Scope float_scope.

Lemma is_nan_spec x : is_nan x = sf_nan (Prim2SF x).
Proof.
  unfold is_nan. rewrite FloatAxioms.eqb_spec, SFeqb_refl. apply negb_involutive.
Qed.

Lemma is_nan_true x : is_nan x = true ↔ x = nan.
Proof.
  rewrite is_nan_spec. split.
  - intros H. apply FloatAxioms.Prim2SF_inj.
    destruct (Prim2SF x); try discriminate. reflexivity.
  - intros ->. reflexivity.
Qed.

Lemma ltb_irrefl x : (x <? x) = false.
Proof. rewrite FloatAxioms.ltb_spec. apply SFltb_irrefl. Qed.

Lemma ltb_asym x y : (x <? y) = true → (y <? x) = false.
Proof. rewrite !FloatAxioms.ltb_spec. apply SFltb_asym. Qed.

Lemma ltb_neg_trans x y z :
  is_nan y = false → (x <? y) = false → (y <? z) = false → (x <? z) = false.
Proof. rewrite is_nan_spec, !FloatAxioms.ltb_spec. apply SFltb_neg_trans. Qed.

Lemma eqb_ltb x y : (x =? y) = true → (x <? y) = false.
Proof. rewrite FloatAxioms.eqb_spec, FloatAxioms.ltb_spec. apply SFeqb_ltb. Qed.

Lemma eqb_gtb x y : (x =? y) = true → (y <? x) = false.
Proof.
  rewrite FloatAxioms.eqb_spec, FloatAxioms.ltb_spec, SFeqb_sym.
  apply SFeqb_ltb.
Qed.

Lemma ltb_not_nan x y : (x <? y) = true → is_nan x = false ∧ is_nan y = false.
Proof. rewrite !is_nan_spec, FloatAxioms.ltb_spec. apply SFltb_not_nan. Qed.

Lemma ltb_eqb x y : (x <? y) = true → (x =? y) = false.
Proof. rewrite FloatAxioms.eqb_spec, FloatAxioms.ltb_spec. apply SFltb_eqb. Qed.


Lemma ltb_false_leb x y :
  is_nan x = false → is_nan y = false → (x <? y) = false → (y <=? x) = true.
Proof.
  rewrite !is_nan_spec, FloatAxioms.leb_spec, FloatAxioms.ltb_spec.
  apply SFltb_false_leb.
Qed.

Lemma ltb_leb x y : (x <? y) = true → (y <=? x) = false.
Proof. rewrite FloatAxioms.leb_spec, FloatAxioms.ltb_spec. apply SFltb_leb. Qed.

Lemma leb_antisym x y : (x <=? y) = true → (y <=? x) = true → (x =? y) = true.
Proof. rewrite !FloatAxioms.leb_spec, FloatAxioms.eqb_spec. apply SFleb_antisym. Qed.

Lemma eqb_class x y k : (x =? k) = true → (y =? k) = true → (x <? y) = false.
Proof. rewrite !FloatAxioms.eqb_spec, FloatAxioms.ltb_spec. apply SFeqb_class. Qed.

Lemma eqb_refl x : is_nan x = false → (x =? x) = true.
Proof. unfold is_nan. by destruct (x =? x). Qed.

Lemma ltb_nan_l x : (nan <? x) = false.
Proof.
  destruct (nan <? x) eqn:E; [|done].
  apply ltb_not_nan in E as [E _]. discriminate.
Qed.

(** Division by a missing value, and arithmetic on one. *)
Lemma div_nan_r x : x / nan = nan.
Proof.
  apply FloatAxioms.Prim2SF_inj. rewrite FloatAxioms.div_spec.
  change (Prim2SF nan) with S754_nan. by destruct (Prim2SF x).
Qed.

(** IEEE division by zero raises nothing: the quotient is an infinity, or
    missing, and so is the percentage computed from it. *)
Lemma pct_of_zero_close x z :
  is_zero z = true →
  (x / z - 1) * 100 = infinity ∨ (x / z - 1) * 100 = neg_infinity
  ∨ (x / z - 1) * 100 = nan.
Proof.
  unfold is_zero. rewrite FloatAxioms.eqb_spec.
  change (Prim2SF 0) with (S754_zero false).
  intros [s Hz]%SFeqb_zero. set (r := (x / z - 1) * 100).
  assert (Prim2SF r = S754_infinity false ∨ Prim2SF r = S754_infinity true
          ∨ Prim2SF r = S754_nan) as Hr.
  { unfold r.
    rewrite FloatAxioms.mul_spec, FloatAxioms.sub_spec, FloatAxioms.div_spec, Hz.
    destruct (Prim2SF x) as [[]|[]| |[] m e], s; cbn; auto. }
  rewrite <- (FloatAxioms.SF2Prim_Prim2SF r).
  destruct Hr as [-> | [-> | ->]]; auto.
Qed.

End FloatFacts.

(** ** The series operations *)

Section SeriesFacts.

Implicit Types s adj : Series.

Lemma length_shift s : length (shift s) = length s.
Proof. unfold shift. rewrite length_take. cbn. lia. Qed.

Lemma shift_lookup_0 s x : shift s !! 0 = Some x → x = nan.
Proof.
  unfold shift. destruct s as [|y s]; cbn; [done|]. by intros [= <-].
Qed.

Lemma shift_lookup_S s i :
  S i < length s → shift s !! S i = s !! i.
Proof.
  intros Hi. unfold shift. rewrite lookup_take_lt by done. reflexivity.
Qed.

Lemma length_ffill_from p s : length (ffill_from p s) = length s.
Proof. revert p. induction s as [|x s IH]; intros p; cbn; [done|]. by rewrite IH. Qed.

(** Forward filling leaves the values that are present as they are. *)
Lemma ffill_from_lookup_present p s i x :
  s !! i = Some x → is_nan x = false → ffill_from p s !! i = Some x.
Proof.
  revert p i. induction s as [|y s IH]; intros p [|i]; cbn; try done.
  - intros [= ->] ->. reflexivity.
  - intros H Hx. by apply IH.
Qed.

Lemma length_filled fm s : length (filled fm s) = length s.
Proof. destruct fm; cbn; [apply length_ffill_from | done]. Qed.

Lemma filled_lookup_present fm s i x :
  s !! i = Some x → is_nan x = false → filled fm s !! i = Some x.
Proof. destruct fm; cbn; [apply ffill_from_lookup_present | done]. Qed.

Lemma length_pct_change fm s : length (pct_change fm s) = length s.
Proof.
  unfold pct_change.
  rewrite length_fmap, length_zip_with, length_shift, length_filled. lia.
Qed.

Lemma length_returns_of fm adj : length (returns_of fm adj) = length adj.
Proof. unfold returns_of, scale. by rewrite length_fmap, length_pct_change. Qed.

(** The return of a row is computed from the close of the row and of the row
    before it, after filling. *)
Lemma returns_of_lookup_S fm adj i cur prev :
  filled fm adj !! S i = Some cur → filled fm adj !! i = Some prev →
  returns_of fm adj !! S i = Some ((cur / prev - 1) * 100)%float.
Proof.
  intros Hc Hp. unfold returns_of, scale, pct_change.
  rewrite !list_lookup_fmap, lookup_zip_with, Hc. cbn.
  rewrite shift_lookup_S, Hp by (by apply lookup_lt_Some in Hc). reflexivity.
Qed.

(** The first row has no return. *)
Lemma returns_of_lookup_0 fm adj r : returns_of fm adj !! 0 = Some r → r = nan.
Proof.
  unfold returns_of, scale, pct_change.
  rewrite !list_lookup_fmap, lookup_zip_with.
  destruct (filled fm adj !! 0) as [c|]; cbn; [|done].
  destruct (shift (filled fm adj) !! 0) as [p|] eqn:Hp; cbn; [|done].
  apply shift_lookup_0 in Hp as ->. rewrite div_nan_r. by intros [= <-].
Qed.

Lemma length_roll_states w values st rows :
  length (roll_states w values st rows) = length rows.
Proof.
  revert st. induction rows as [|i rows IH]; intros st; cbn; [done|].
  by rewrite IH.
Qed.

Lemma length_rolling_mean w s : length (rolling_mean w s) = length s.
Proof.
  unfold rolling_mean, roll_mean.
  by rewrite length_fmap, length_roll_states, length_seq, length_fmap.
Qed.

Lemma length_window_at w s i : length (window_at w s i) ≤ S i.
Proof. unfold window_at. rewrite length_drop, length_take. lia. Qed.

Lemma length_filter_le {A} (f : A → bool) (l : list A) :
  length (List.filter f l) ≤ length l.
Proof. induction l as [|x l IH]; cbn; [lia|]. destruct (f x); cbn; lia. Qed.

(** The number of values present in the window that ends at row [i]. *)
Lemma nobs_add_mean v st :
  nobs (add_mean v st) = (nobs st + if notna v then 1 else 0)%Z.
Proof. unfold add_mean, notna. destruct (is_nan v); cbn; lia. Qed.

Lemma nobs_remove_mean v st :
  nobs (remove_mean v st) = (nobs st - if notna v then 1 else 0)%Z.
Proof. unfold remove_mean, notna. destruct (is_nan v); cbn; lia. Qed.

Lemma present_snoc (l : list float) v :
  Z.of_nat (length (List.filter notna (l ++ [v])))
  = (Z.of_nat (length (List.filter notna l)) + if notna v then 1 else 0)%Z.
Proof.
  rewrite List.filter_app, length_app. cbn. destruct (notna v); cbn; lia.
Qed.

Lemma lookup_nth_nan (values : Series) i :
  i < length values → values !! i = Some (nth i values nan).
Proof.
  intros Hi. destruct (lookup_lt_is_Some_2 values i Hi) as [x Hx].
  by rewrite (nth_lookup_Some _ _ nan _ Hx).
Qed.

Lemma window_at_0 w (values : Series) :
  0 < w → 0 < length values → window_at w values 0 = [nth 0 values nan].
Proof.
  intros Hw Hlen. unfold window_at. replace (1 - w) with 0 by lia.
  rewrite drop_0. destruct values; [cbn in Hlen; lia|done].
Qed.

Lemma window_at_grow w (values : Series) i :
  S i < w → S i < length values →
  window_at w values (S i) = window_at w values i ++ [nth (S i) values nan].
Proof.
  intros Hw Hlen. unfold window_at.
  replace (S (S i) - w) with 0 by lia. replace (S i - w) with 0 by lia.
  rewrite !drop_0. apply take_S_r. apply lookup_nth_nan. lia.
Qed.

Lemma window_at_slide w (values : Series) i :
  0 < w → w ≤ S i → S i < length values →
  window_at w values i
  = nth (S i - w) values nan
    :: drop (S (S i - w)) (take (S i) values)
  ∧ window_at w values (S i)
    = drop (S (S i - w)) (take (S i) values) ++ [nth (S i) values nan].
Proof.
  intros Hw Hle Hlen. unfold window_at. split.
  - apply drop_S. rewrite lookup_take_lt by lia. apply lookup_nth_nan. lia.
  - rewrite (take_S_r values (S i) (nth (S i) values nan))
      by (apply lookup_nth_nan; lia).
    replace (S (S i) - w) with (S (S i - w)) by lia.
    apply drop_app_le. rewrite length_take. lia.
Qed.

Lemma nobs_roll_step w (values : Series) st i :
  0 < w → i < length values →
  nobs st = match i with
            | 0 => 0%Z
            | S j => Z.of_nat (length (List.filter notna (window_at w values j)))
            end →
  nobs (roll_step w values st i)
  = Z.of_nat (length (List.filter notna (window_at w values i))).
Proof.
  intros Hw Hlen Hst. unfold roll_step. rewrite nobs_add_mean.
  destruct i as [|i].
  - destruct (Nat.leb_spec w 0); [lia|].
    rewrite window_at_0, Hst by done. cbn. destruct (notna _); cbn; lia.
  - destruct (Nat.leb_spec w (S i)) as [Hle|Hgt].
    + destruct (window_at_slide w values i Hw Hle Hlen) as [Hold Hnew].
      rewrite nobs_remove_mean, Hst, Hnew, present_snoc, Hold.
      cbn [List.filter]. destruct (notna (nth (S i - w) values nan)); cbn; lia.
    + by rewrite Hst, window_at_grow, present_snoc.
Qed.

Lemma nobs_roll_states w (values : Series) n i0 st k st' :
  0 < w → i0 + n ≤ length values →
  nobs st = match i0 with
            | 0 => 0%Z
            | S j => Z.of_nat (length (List.filter notna (window_at w values j)))
            end →
  roll_states w values st (seq i0 n) !! k = Some st' →
  nobs st' = Z.of_nat (length (List.filter notna (window_at w values (i0 + k)))).
Proof.
  intros Hw. revert i0 st k. induction n as [|n IH]; intros i0 st k Hlen Hst;
    cbn; [done|].
  pose proof (nobs_roll_step w values st i0 Hw ltac:(lia) Hst) as Hstep.
  destruct k as [|k]; cbn.
  - intros [= <-]. by rewrite Nat.add_0_r.
  - intros Hk. replace (i0 + S k) with (S i0 + k) by lia.
    apply (IH (S i0) (roll_step w values st i0) k); [lia|done|done].
Qed.

(** A row of the rolling mean is the mean of a state that has counted the
    values present in the window of the row. *)
Lemma rolling_mean_lookup w (s : Series) i x :
  0 < w → rolling_mean w s !! i = Some x →
  ∃ st, x = calc_mean (Z.of_nat w) st
        ∧ nobs st
          = Z.of_nat (length (List.filter notna
                                (window_at w (prep_value <$> s) i))).
Proof.
  intros Hw. unfold rolling_mean, roll_mean. rewrite list_lookup_fmap.
  destruct (roll_states _ _ _ _ !! i) as [st|] eqn:Hst; [|done].
  intros [= <-]. exists st. split; [done|].
  eapply (nobs_roll_states w (prep_value <$> s) (length (prep_value <$> s)) 0
            _ i st Hw (le_n _)); [|exact Hst]. reflexivity.
Qed.

(** Below the minimum number of values there is no mean. *)
Lemma calc_mean_short minp st : (nobs st < minp)%Z → calc_mean minp st = nan.
Proof.
  intros H. unfold calc_mean. by destruct (Z.leb_spec minp (nobs st)); [lia|].
Qed.

Lemma rolling_mean_early w s i x :
  S i < w → rolling_mean w s !! i = Some x → x = nan.
Proof.
  intros Hw (st & -> & Hn)%rolling_mean_lookup; [|lia].
  apply calc_mean_short. rewrite Hn.
  pose proof (length_filter_le notna (window_at w (prep_value <$> s) i)).
  pose proof (length_window_at w (prep_value <$> s) i). lia.
Qed.

(** The running sum at work: the compensation keeps the sum of ordinary
    prices exact where adding them one after the other does not, an infinite
    close counts as a missing one, and a window of one repeated value has
    that value as its mean. *)
Lemma rolling_mean_examples :
  rolling_mean 5 [23.3; 33; 16.4; 22.5; 23.8]%float
  = [nan; nan; nan; nan; 23.8]%float
  ∧ (((((0 + 23.3) + 33) + 16.4) + 22.5 + 23.8) / 5)%float
    = 23.799999999999997%float
  ∧ rolling_mean 5 [infinity; 1; 2; 3; 4; 5; 6]%float
    = [nan; nan; nan; nan; nan; 3; 4]%float
  ∧ rolling_mean 5 [0.1; 0.1; 0.1; 0.1; 0.1; 0.1]%float
    = [nan; nan; nan; nan; 0.1; 0.1]%float.
Proof. vm_compute. repeat split; reflexivity. Qed.

Lemma last_lookup_nan (l : list float) :
  l ≠ [] → l !! (length l - 1) = Some (List.last l nan).
Proof.
  induction l as [|x [|y l] IH]; [done|done|].
  intros _. cbn [length]. replace (S (S (length l)) - 1) with (S (length (y :: l) - 1))
    by (cbn; lia).
  change (List.last (x :: y :: l) nan) with (List.last (y :: l) nan).
  rewrite lookup_cons. by apply IH.
Qed.

Lemma rolling_mean_last_short w s :
  length s < w → List.last (rolling_mean w s) nan = nan.
Proof.
  intros H. destruct (decide (rolling_mean w s = [])) as [->|Hne]; [done|].
  pose proof (last_lookup_nan _ Hne) as Hl.
  apply rolling_mean_early in Hl; [done|].
  rewrite length_rolling_mean.
  assert (length s ≠ 0); [|lia].
  intros H0. apply Hne. apply nil_length_inv. by rewrite length_rolling_mean.
Qed.

Lemma length_tail n s : length (tail n s) ≤ n.
Proof. unfold tail. rewrite length_drop. lia. Qed.

Lemma count_positive_bounds n s : (0 ≤ count_positive (tail n s) ≤ Z.of_nat n)%Z.
Proof.
  unfold count_positive.
  pose proof (length_filter_le (λ x, 0 <? x)%float (tail n s)).
  pose proof (length_tail n s). lia.
Qed.

(** A missing return is not counted: counting the returns above zero is
    counting those that are present and above zero. *)
Lemma count_positive_present s :
  count_positive s
  = Z.of_nat (length (List.filter (λ x, notna x && (0 <? x)%float) s)).
Proof.
  unfold count_positive. f_equal. f_equal.
  induction s as [|x s IH]; cbn; [done|]. rewrite IH.
  destruct (0 <? x)%float eqn:E; cbn.
  - apply ltb_not_nan in E as [_ E]. unfold notna. by rewrite E.
  - by rewrite andb_false_r.
Qed.

End SeriesFacts.

(** ** Running [analyze_stock] *)

Section AnalyzeStock.

Variable fm : fill_method.

Implicit Types (h : gmap loc DataFrame) (l : loc) (df : DataFrame) (adj : Series).

Lemma last_row_lookup df c s row :
  last_row df = Ok row → columns df !! c = Some s →
  row !! c = Some (List.last s nan).
Proof.
  unfold last_row. destruct (index df); [done|].
  intros [= <-] Hc. by rewrite lookup_fmap, Hc.
Qed.

Lemma bind_Ok {A B} (m : Py A) (k : A → Py B) h a h' :
  m h = (Ok a, h') → bind m k h = k a h'.
Proof. unfold bind. by intros ->. Qed.

Lemma bind_Raise {A B} (m : Py A) (k : A → Py B) h e h' :
  m h = (Raise e, h') → bind m k h = (Raise e, h').
Proof. unfold bind. by intros ->. Qed.

Lemma df_getitem_Ok l c h df s :
  h !! l = Some df → columns df !! c = Some s → df_getitem l c h = (Ok s, h).
Proof. intros Hl Hc. unfold df_getitem, bind, deref. by rewrite Hl, Hc. Qed.

Lemma df_setitem_Ok l c s h df :
  h !! l = Some df →
  df_setitem l c s h = (Ok tt, <[l := set_column df c s]> h).
Proof. intros Hl. unfold df_setitem, bind, deref, store. by rewrite Hl. Qed.

Lemma df_iloc_last_run l h df :
  h !! l = Some df → df_iloc_last l h = (last_row df, h).
Proof. intros Hl. unfold df_iloc_last, bind, deref, lift. rewrite Hl. by destruct (last_row df). Qed.

Lemma row_getitem_Ok (r : Row) c x h :
  r !! c = Some x → row_getitem r c h = (Ok x, h).
Proof. intros Hc. unfold row_getitem. by rewrite Hc. Qed.

Lemma df_copy_Ok l h df :
  h !! l = Some df →
  df_copy l h = (Ok (fresh (dom h)), <[fresh (dom h) := df]> h).
Proof. intros Hl. unfold df_copy, bind, deref, alloc. by rewrite Hl. Qed.

Lemma fresh_loc_unused h : h !! fresh (dom h) = None.
Proof. apply not_elem_of_dom, is_fresh. Qed.

(** The run of [analyze_stock] on a frame that has a price column: both
    columns are written, then the last row is read. *)
Lemma analyze_stock_run ticker l h df adj :
  h !! l = Some df → columns df !! "Adj Close" = Some adj →
  analyze_stock fm ticker l h
  = (match index df with
     | [] => Raise IndexError
     | _ => Ok (analysis_of fm ticker adj)
     end, <[l := analysed_frame fm df adj]> h).
Proof.
  intros Hl Hadj. unfold analyze_stock.
  fold (returns_of fm adj).
  set (df1 := set_column df "Daily Return %" (returns_of fm adj)).
  set (h1 := <[l := df1]> h).
  assert (h1 !! l = Some df1) as Hl1 by apply lookup_insert_eq.
  assert (columns df1 !! "Adj Close" = Some adj) as Hadj1.
  { unfold df1. cbn. by rewrite lookup_insert_ne. }
  set (df2 := analysed_frame fm df adj).
  set (h2 := <[l := df2]> h).
  assert (<[l := set_column df1 "SMA_5" (rolling_mean 5 adj)]> h1 = h2) as Hh2.
  { unfold h1, h2. by rewrite insert_insert_eq. }
  assert (h2 !! l = Some df2) as Hl2 by apply lookup_insert_eq.
  assert (columns df2 !! "Adj Close" = Some adj) as Hadj2.
  { unfold df2, analysed_frame. cbn. by rewrite !lookup_insert_ne. }
  assert (columns df2 !! "Daily Return %" = Some (returns_of fm adj)) as Hret2.
  { unfold df2, analysed_frame. cbn.
    by rewrite lookup_insert_ne, lookup_insert_eq. }
  assert (columns df2 !! "SMA_5" = Some (rolling_mean 5 adj)) as Hsma2.
  { unfold df2, analysed_frame. cbn. by rewrite lookup_insert_eq. }
  rewrite (bind_Ok _ _ h adj h) by by eapply df_getitem_Ok.
  rewrite (bind_Ok _ _ h tt h1) by by eapply df_setitem_Ok.
  rewrite (bind_Ok _ _ h1 adj h1) by by eapply df_getitem_Ok.
  rewrite (bind_Ok _ _ h1 tt h2) by (rewrite <- Hh2; by eapply df_setitem_Ok).
  destruct (last_row df2) as [row|e] eqn:Hrow.
  - rewrite (bind_Ok _ _ h2 row h2) by (rewrite <- Hrow; by apply df_iloc_last_run).
    rewrite (bind_Ok _ _ h2 (List.last (returns_of fm adj) nan) h2)
      by (apply row_getitem_Ok; by eapply last_row_lookup).
    rewrite (bind_Ok _ _ h2 (List.last adj nan) h2)
      by (apply row_getitem_Ok; by eapply last_row_lookup).
    rewrite (bind_Ok _ _ h2 (List.last (rolling_mean 5 adj) nan) h2)
      by (apply row_getitem_Ok; by eapply last_row_lookup).
    rewrite (bind_Ok _ _ h2 (returns_of fm adj) h2) by by eapply df_getitem_Ok.
    unfold last_row in Hrow. change (index df2) with (index df) in Hrow.
    destruct (index df); [done|].
    unfold analysis_of, ret. by destruct (_ && _).
  - rewrite (bind_Raise _ _ h2 e h2) by (rewrite <- Hrow; by apply df_iloc_last_run).
    unfold last_row in Hrow. change (index df2) with (index df) in Hrow.
    destruct (index df); [|done]. by injection Hrow as <-.
Qed.

Lemma analyze_stock_no_price ticker l h df :
  h !! l = Some df → columns df !! "Adj Close" = None →
  analyze_stock fm ticker l h = (Raise (KeyError "Adj Close"), h).
Proof.
  intros Hl Hadj.
  unfold analyze_stock, df_getitem, bind, deref, raise. by rewrite Hl, Hadj.
Qed.

Lemma analyze_stock_no_object ticker l h :
  h !! l = None → analyze_stock fm ticker l h = (Raise NoSuchObject, h).
Proof.
  intros Hl. unfold analyze_stock, df_getitem, bind, deref. by rewrite Hl.
Qed.

(** A run that returns an analysis ran on a frame with a price column and at
    least one row. *)
Lemma analyze_stock_Ok ticker l h a h' :
  analyze_stock fm ticker l h = (Ok a, h') →
  ∃ df adj, h !! l = Some df ∧ columns df !! "Adj Close" = Some adj
    ∧ index df ≠ [] ∧ a = analysis_of fm ticker adj
    ∧ h' = <[l := analysed_frame fm df adj]> h.
Proof.
  intros Hrun.
  destruct (h !! l) as [df|] eqn:Hl;
    [|by rewrite analyze_stock_no_object in Hrun].
  destruct (columns df !! "Adj Close") as [adj|] eqn:Hadj;
    [|by rewrite (analyze_stock_no_price _ _ _ df) in Hrun].
  rewrite (analyze_stock_run _ _ _ df adj) in Hrun by done.
  exists df, adj. destruct (index df); [done|].
  by injection Hrun as <- <-.
Qed.

End AnalyzeStock.

(** ** The signal rule and the trend score *)

(** C1. An analysis that [analyze_stock] returns has its trade signal set
    exactly when the last close is above the 5-day average and the last
    return is above zero; the reason is the bullish one in that case and
    "No strong bullish signal" otherwise, and a last close equal to the
    average gives no signal. *)
Theorem trade_signal_rule fm ticker l (h : gmap loc DataFrame) a h' :
  analyze_stock fm ticker l h = (Ok a, h') →
  (Trade_Signal a = true
   ↔ (SMA_5_Day a <? Last_Close a)%float = true
     ∧ (0 <? Last_Return a)%float = true)
  ∧ (Trade_Signal a = true
     → Reason a = "Price above 5-day SMA with positive momentum")
  ∧ (Trade_Signal a = false → Reason a = "No strong bullish signal")
  ∧ ((Last_Close a =? SMA_5_Day a)%float = true
     → Trade_Signal a = false ∧ Reason a = "No strong bullish signal").
Proof.
  intros (df & adj & _ & _ & _ & -> & _)%analyze_stock_Ok.
  unfold analysis_of. cbn.
  set (c := List.last adj nan). set (m := List.last (rolling_mean 5 adj) nan).
  set (r := List.last (returns_of fm adj) nan).
  split; [apply andb_true_iff|].
  split; [by intros ->|]. split; [by intros ->|].
  intros Heq. apply eqb_gtb in Heq. by rewrite Heq.
Qed.

Lemma trade_signal_rule_witness :
  (Trade_Signal analysis_example = true
   ↔ (SMA_5_Day analysis_example <? Last_Close analysis_example)%float = true
     ∧ (0 <? Last_Return analysis_example)%float = true)
  ∧ (Trade_Signal analysis_example = true
     → Reason analysis_example = "Price above 5-day SMA with positive momentum")
  ∧ (Trade_Signal analysis_example = false
     → Reason analysis_example = "No strong bullish signal")
  ∧ ((Last_Close analysis_example =? SMA_5_Day analysis_example)%float = true
     → Trade_Signal analysis_example = false
       ∧ Reason analysis_example = "No strong bullish signal").
Proof.
  apply (trade_signal_rule NoFill "T" 1%positive heap_example analysis_example
           (analyze_stock NoFill "T" 1%positive heap_example).2).
  vm_compute. reflexivity.
Defined.

(** C2. The trend score of an analysis is the number of returns above zero
    among the last five rows of the return column of the analysed frame (all
    rows when there are fewer than five); a missing return is not counted,
    and the score lies between 0 and 5. *)
Theorem trend_score_counts fm ticker l (h : gmap loc DataFrame) a h' :
  analyze_stock fm ticker l h = (Ok a, h') →
  ∃ df' returns,
    h' !! l = Some df'
    ∧ columns df' !! "Daily Return %" = Some returns
    ∧ Trend_Score a
      = Z.of_nat (length (List.filter (λ x, 0 <? x)%float
                            (drop (length returns - 5) returns)))
    ∧ Trend_Score a
      = Z.of_nat (length (List.filter (λ x, notna x && (0 <? x)%float)
                            (drop (length returns - 5) returns)))
    ∧ (0 ≤ Trend_Score a ≤ 5)%Z.
Proof.
  intros (df & adj & Hl & Hadj & _ & -> & ->)%analyze_stock_Ok.
  exists (analysed_frame fm df adj), (returns_of fm adj).
  split; [apply lookup_insert_eq|].
  split; [cbn; by rewrite lookup_insert_ne, lookup_insert_eq|].
  cbn [Trend_Score analysis_of].
  split; [reflexivity|]. split; [apply count_positive_present|].
  apply (count_positive_bounds 5).
Qed.

Lemma trend_score_counts_witness :
  ∃ df' returns,
    (analyze_stock NoFill "T" 1%positive heap_example).2 !! 1%positive = Some df'
    ∧ columns df' !! "Daily Return %" = Some returns
    ∧ Trend_Score analysis_example
      = Z.of_nat (length (List.filter (λ x, 0 <? x)%float
                            (drop (length returns - 5) returns)))
    ∧ Trend_Score analysis_example
      = Z.of_nat (length (List.filter (λ x, notna x && (0 <? x)%float)
                            (drop (length returns - 5) returns)))
    ∧ (0 ≤ Trend_Score analysis_example ≤ 5)%Z.
Proof.
  apply (trend_score_counts NoFill "T" 1%positive heap_example analysis_example).
  vm_compute. reflexivity.
Defined.

(** ** The indicator rows *)

Section IndicatorRows.

Variable fm : fill_method.

Lemma indicator_rows_analysed df adj :
  columns df !! "Adj Close" = Some adj →
  indicator_rows (analysed_frame fm df adj)
  = Some (zip_with (λ '(d, c) '(x, y), mkRow d c x y)
            (zip (index df) adj)
            (zip (returns_of fm adj) (rolling_mean 5 adj))).
Proof.
  intros Hadj. unfold indicator_rows, analysed_frame. cbn.
  rewrite (lookup_insert_ne _ "SMA_5" "Adj Close") by done.
  rewrite (lookup_insert_ne _ "Daily Return %" "Adj Close"), Hadj by done. cbn.
  rewrite (lookup_insert_ne _ "SMA_5" "Daily Return %") by done.
  rewrite !lookup_insert_eq. done.
Qed.

Lemma rows_lookup (idx : list Z) (adj r m : Series) i :
  zip_with (λ '(d, c) '(x, y), mkRow d c x y) (zip idx adj) (zip r m) !! i
  = (d ← idx !! i; c ← adj !! i; x ← r !! i; y ← m !! i; Some (mkRow d c x y)).
Proof.
  rewrite lookup_zip_with.
  rewrite (lookup_zip_with pair idx adj), (lookup_zip_with pair r m).
  destruct (idx !! i); cbn; [|done]. destruct (adj !! i); cbn; [|done].
  destruct (r !! i); cbn; [|done]. by destruct (m !! i).
Qed.

Lemma rows_length (idx : list Z) (adj r m : Series) :
  length idx = length adj → length r = length adj → length m = length adj →
  length (zip_with (λ '(d, c) '(x, y), mkRow d c x y) (zip idx adj) (zip r m))
  = length adj.
Proof. intros. rewrite length_zip_with, !length_zip. lia. Qed.

Lemma rows_fields (idx : list Z) (adj r m : Series) :
  length idx = length adj → length r = length adj → length m = length adj →
  let rows := zip_with (λ '(d, c) '(x, y), mkRow d c x y) (zip idx adj) (zip r m) in
  date <$> rows = idx ∧ adjusted_close <$> rows = adj
  ∧ daily_return_pct <$> rows = r ∧ trailing_avg_5 <$> rows = m.
Proof.
  intros Hi Hr Hm rows.
  assert (∀ i, i < length adj → ∃ d c x y,
            idx !! i = Some d ∧ adj !! i = Some c ∧ r !! i = Some x
            ∧ m !! i = Some y ∧ rows !! i = Some (mkRow d c x y)) as Hrow.
  { intros i Hlt.
    destruct (lookup_lt_is_Some_2 idx i) as [d Hd]; [lia|].
    destruct (lookup_lt_is_Some_2 adj i) as [c Hc]; [lia|].
    destruct (lookup_lt_is_Some_2 r i) as [x Hx]; [lia|].
    destruct (lookup_lt_is_Some_2 m i) as [y Hy]; [lia|].
    exists d, c, x, y. unfold rows. by rewrite rows_lookup, Hd, Hc, Hx, Hy. }
  assert (length rows = length adj) as Hlen by by apply rows_length.
  repeat split; apply list_eq; intros i; rewrite list_lookup_fmap;
    (destruct (decide (i < length adj)) as [Hlt|Hge];
     [destruct (Hrow i Hlt) as (d & c & x & y & Hd & Hc & Hx & Hy & ->); by cbn
     |rewrite (lookup_ge_None_2 rows), lookup_ge_None_2 by lia; done]).
Qed.

End IndicatorRows.

(** C6. For a price series of six bars or more, the analysed frame has one
    indicator row per bar, with the dates and closes of the bars in their
    order; the return of the first row is missing and the rows 0 to 3 have
    no trailing average. *)
Theorem indicator_rows_per_bar fm ticker l (h : gmap loc DataFrame) df adj :
  h !! l = Some df →
  columns df !! "Adj Close" = Some adj →
  length (index df) = length adj →
  6 ≤ length adj →
  ∃ a df' rows,
    analyze_stock fm ticker l h = (Ok a, <[l := df']> h)
    ∧ indicator_rows df' = Some rows
    ∧ length rows = length adj
    ∧ date <$> rows = index df
    ∧ adjusted_close <$> rows = adj
    ∧ (∀ r, rows !! 0 = Some r → is_nan (daily_return_pct r) = true)
    ∧ (∀ i r, i < 4 → rows !! i = Some r → is_nan (trailing_avg_5 r) = true).
Proof.
  intros Hl Hadj Hidx Hlen.
  pose proof (length_returns_of fm adj) as Hr.
  pose proof (length_rolling_mean 5 adj) as Hm.
  destruct (rows_fields (index df) adj _ _ Hidx Hr Hm) as (Hd & Hc & Hx & Hy).
  eexists (analysis_of fm ticker adj), (analysed_frame fm df adj), _.
  split.
  { rewrite (analyze_stock_run fm ticker l h df adj) by done.
    destruct (index df); [cbn in Hidx; lia|done]. }
  split; [by apply indicator_rows_analysed|].
  split; [by apply rows_length|].
  split; [done|]. split; [done|]. split.
  - intros r Hrow.
    assert (returns_of fm adj !! 0 = Some (daily_return_pct r)) as H0.
    { rewrite <- Hx, list_lookup_fmap, Hrow. done. }
    apply returns_of_lookup_0 in H0. by rewrite H0.
  - intros i r Hi Hrow.
    assert (rolling_mean 5 adj !! i = Some (trailing_avg_5 r)) as H0.
    { rewrite <- Hy, list_lookup_fmap, Hrow. done. }
    apply rolling_mean_early in H0; [|lia]. by rewrite H0.
Qed.

Lemma indicator_rows_per_bar_witness :
  ∃ a df' rows,
    analyze_stock NoFill "T" 1%positive heap_example
    = (Ok a, <[1%positive := df']> heap_example)
    ∧ indicator_rows df' = Some rows
    ∧ length rows = length closes_example
    ∧ date <$> rows = index (price_frame closes_example)
    ∧ adjusted_close <$> rows = closes_example
    ∧ (∀ r, rows !! 0 = Some r → is_nan (daily_return_pct r) = true)
    ∧ (∀ i r, i < 4 → rows !! i = Some r → is_nan (trailing_avg_5 r) = true).
Proof.
  apply (indicator_rows_per_bar NoFill "T" 1%positive heap_example
           (price_frame closes_example) closes_example).
  - reflexivity.
  - reflexivity.
  - reflexivity.
  - cbn. lia.
Defined.

(** ** The worked example *)

(** C7. On the closes 10, 11, 9, 12, 13, 14 the last return is
    (14/13 - 1) * 100, which is 7.69 to two decimals and within 1e-12 of
    (14 - 13) / 13 * 100; the trailing average is the mean of 11, 9, 12, 13
    and 14, that is 11.8; the signal is set with the bullish reason, and
    [main] reports the symbol as the best candidate. *)
Theorem example_series_analysis fm :
  ∃ a h',
    analyze_stock fm "T" 1%positive heap_example = (Ok a, h')
    ∧ Last_Close a = 14%float
    ∧ Last_Return a = ((14 / 13 - 1) * 100)%float
    ∧ (7.685 <=? Last_Return a)%float = true
    ∧ (Last_Return a <? 7.695)%float = true
    ∧ (abs (Last_Return a - (14 - 13) / 13 * 100) <? 1e-12)%float = true
    ∧ SMA_5_Day a = ((11 + 9 + 12 + 13 + 14) / 5)%float
    ∧ SMA_5_Day a = 11.8%float
    ∧ Trend_Score a = 4%Z
    ∧ Trade_Signal a = true
    ∧ Reason a = "Price above 5-day SMA with positive momentum"
    ∧ (main fm ["T"] {[ "T" := 1%positive ]} heap_example).1
      = Ok ([a], BestCandidate a).
Proof.
  exists analysis_example, (analyze_stock fm "T" 1%positive heap_example).2.
  destruct fm; vm_compute; repeat split; reflexivity.
Qed.

(** ** Determinism *)

(** The result of [analyze_stock] is a function of the ticker and of the
    price series of the frame it is given. *)
Lemma analyze_stock_result fm ticker l (h : gmap loc DataFrame) :
  (analyze_stock fm ticker l h).1
  = match price_series h l with
    | None => Raise NoSuchObject
    | Some (_, None) => Raise (KeyError "Adj Close")
    | Some ([], Some _) => Raise IndexError
    | Some (_, Some adj) => Ok (analysis_of fm ticker adj)
    end.
Proof.
  unfold price_series. destruct (h !! l) as [df|] eqn:Hl; cbn.
  - destruct (columns df !! "Adj Close") as [adj|] eqn:Hadj.
    + rewrite (analyze_stock_run fm ticker l h df adj) by done. cbn.
      by destruct (index df).
    + rewrite (analyze_stock_no_price fm ticker l h df) by done.
      by destruct (index df).
  - by rewrite analyze_stock_no_object.
Qed.

(** The analysis leaves the price series of its frame as it was. *)
Lemma analyze_stock_keeps_series fm ticker l (h : gmap loc DataFrame) :
  price_series (analyze_stock fm ticker l h).2 l = price_series h l.
Proof.
  unfold price_series. destruct (h !! l) as [df|] eqn:Hl; cbn.
  - destruct (columns df !! "Adj Close") as [adj|] eqn:Hadj.
    + rewrite (analyze_stock_run fm ticker l h df adj) by done. cbn.
      rewrite lookup_insert_eq. cbn.
      by rewrite !lookup_insert_ne, Hadj.
    + rewrite (analyze_stock_no_price fm ticker l h df) by done. cbn.
      rewrite Hl. cbn. by rewrite Hadj.
  - rewrite analyze_stock_no_object by done. cbn. by rewrite Hl.
Qed.

(** C8. Two runs of the indicator computation and the classification on the
    same price series return the same result, whatever the store they run
    in and whatever else the frames hold. *)
Theorem analysis_deterministic fm ticker l1 l2 (h1 h2 : gmap loc DataFrame) :
  price_series h1 l1 = price_series h2 l2 →
  (analyze_stock fm ticker l1 h1).1 = (analyze_stock fm ticker l2 h2).1.
Proof. intros Heq. by rewrite !analyze_stock_result, Heq. Qed.

Lemma analysis_deterministic_witness :
  (analyze_stock NoFill "T" 1%positive heap_example).1
  = (analyze_stock NoFill "T" 1%positive
       (analyze_stock NoFill "T" 1%positive heap_example).2).1.
Proof.
  apply (analysis_deterministic NoFill "T" 1%positive 1%positive heap_example
           (analyze_stock NoFill "T" 1%positive heap_example).2).
  vm_compute. reflexivity.
Defined.

(** X3. A second run on the frame that a first run has analysed returns the
    same result and leaves the store as the first run left it. *)
Lemma analyze_stock_rerun fm ticker l (h : gmap loc DataFrame) :
  analyze_stock fm ticker l (analyze_stock fm ticker l h).2
  = analyze_stock fm ticker l h.
Proof.
  destruct (h !! l) as [df|] eqn:Hl.
  - destruct (columns df !! "Adj Close") as [adj|] eqn:Hadj.
    + rewrite (analyze_stock_run fm ticker l h df adj) by done. cbn.
      rewrite (analyze_stock_run fm ticker l _ (analysed_frame fm df adj) adj).
      * cbn. f_equal. rewrite insert_insert_eq. f_equal.
        unfold analysed_frame, set_column. cbn. f_equal.
        rewrite (insert_insert_ne _ "Daily Return %" "SMA_5") by done.
        rewrite insert_insert_eq. f_equal. apply insert_insert_eq.
      * apply lookup_insert_eq.
      * cbn. by rewrite !lookup_insert_ne.
    + rewrite (analyze_stock_no_price fm ticker l h df) by done. cbn.
      by rewrite (analyze_stock_no_price fm ticker l h df).
  - rewrite (analyze_stock_no_object fm ticker l h) by done. cbn.
    by apply analyze_stock_no_object.
Qed.

(** ** The loop of [main] *)

Lemma omap_pointwise {A B} (f g : A → option B) (l : list A) :
  (∀ x, f x = g x) → omap f l = omap g l.
Proof.
  intros Hfg. induction l as [|x l IH]; [done|].
  cbn. by rewrite Hfg, IH.
Qed.

Section MainLoop.

Variable fm : fill_method.
Variable raw_data : gmap string loc.

Implicit Types (h : gmap loc DataFrame) (l : loc) (df : DataFrame) (adj : Series).

Lemma plot_stock_analysed ticker l h df adj :
  h !! l = Some (analysed_frame fm df adj) →
  columns df !! "Adj Close" = Some adj →
  plot_stock ticker l h = (Ok tt, h).
Proof.
  intros Hl Hadj. unfold plot_stock.
  rewrite (bind_Ok _ _ h adj h).
  - rewrite (bind_Ok _ _ h (rolling_mean 5 adj) h); [done|].
    eapply df_getitem_Ok; [done|]. apply lookup_insert_eq.
  - eapply df_getitem_Ok; [done|]. cbn. by rewrite !lookup_insert_ne.
Qed.

(** One turn of the loop on a ticker that has fetched data: the frame is
    copied to an unused reference, and the copy is analysed and plotted. *)
Lemma analyze_all_step ticker rest acc h l df :
  raw_data !! ticker = Some l → h !! l = Some df →
  analyze_all fm raw_data (ticker :: rest) acc h
  = match columns df !! "Adj Close" with
    | None => (Raise (KeyError "Adj Close"), <[fresh (dom h) := df]> h)
    | Some adj =>
        let h' := <[fresh (dom h) := analysed_frame fm df adj]> h in
        match index df with
        | [] => (Raise IndexError, h')
        | _ => analyze_all fm raw_data rest (acc ++ [analysis_of fm ticker adj]) h'
        end
    end.
Proof.
  intros Hraw Hl. cbn [analyze_all]. rewrite Hraw.
  set (l' := fresh (dom h)). set (h1 := <[l' := df]> h).
  rewrite (bind_Ok _ _ h l' h1) by by apply df_copy_Ok.
  assert (h1 !! l' = Some df) as Hl' by apply lookup_insert_eq.
  destruct (columns df !! "Adj Close") as [adj|] eqn:Hadj.
  - assert (<[l' := analysed_frame fm df adj]> h1
            = <[l' := analysed_frame fm df adj]> h) as Hh
      by apply insert_insert_eq.
    cbn zeta. destruct (index df) as [|d ds] eqn:Hidx.
    + rewrite (bind_Raise _ _ h1 IndexError (<[l' := analysed_frame fm df adj]> h));
        [done|].
      rewrite (analyze_stock_run fm ticker l' h1 df adj) by done.
      by rewrite Hidx, Hh.
    + rewrite (bind_Ok _ _ h1 (analysis_of fm ticker adj)
                 (<[l' := analysed_frame fm df adj]> h)).
      * rewrite (bind_Ok _ _ _ tt (<[l' := analysed_frame fm df adj]> h)); [done|].
        eapply plot_stock_analysed; [apply lookup_insert_eq|done].
      * rewrite (analyze_stock_run fm ticker l' h1 df adj) by done.
        by rewrite Hidx, Hh.
  - rewrite (bind_Raise _ _ h1 (KeyError "Adj Close") h1); [done|].
    by apply (analyze_stock_no_price fm ticker l' h1 df).
Qed.

Lemma analyze_all_skip ticker rest acc h :
  raw_data !! ticker = None →
  analyze_all fm raw_data (ticker :: rest) acc h
  = analyze_all fm raw_data rest acc h.
Proof. intros Hraw. cbn [analyze_all]. by rewrite Hraw. Qed.

Lemma analyze_all_dangling ticker rest acc h l :
  raw_data !! ticker = Some l → h !! l = None →
  analyze_all fm raw_data (ticker :: rest) acc h = (Raise NoSuchObject, h).
Proof.
  intros Hraw Hl. cbn [analyze_all]. rewrite Hraw.
  rewrite (bind_Raise _ _ h NoSuchObject h); [done|].
  unfold df_copy, bind, deref. by rewrite Hl.
Qed.

Lemma insert_fresh_subseteq h df : h ⊆ <[fresh (dom h) := df]> h.
Proof. apply insert_subseteq, fresh_loc_unused. Qed.

(** The loop only adds frames to the store: a frame that was there keeps its
    reference and its contents. *)
Lemma analyze_all_grows tickers acc h :
  h ⊆ (analyze_all fm raw_data tickers acc h).2.
Proof.
  revert acc h. induction tickers as [|t ts IH]; intros acc h; [done|].
  destruct (raw_data !! t) as [l|] eqn:Hraw;
    [|rewrite analyze_all_skip by done; apply IH].
  destruct (h !! l) as [df|] eqn:Hl;
    [|by rewrite (analyze_all_dangling t ts acc h l)].
  rewrite (analyze_all_step t ts acc h l df) by done.
  destruct (columns df !! "Adj Close") as [adj|]; [|apply insert_fresh_subseteq].
  cbn zeta. destruct (index df); [apply insert_fresh_subseteq|].
  etrans; [|apply IH]. apply insert_fresh_subseteq.
Qed.

Lemma raw_valid_mono h h' : raw_valid raw_data h → h ⊆ h' → raw_valid raw_data h'.
Proof.
  intros Hv Hsub t l Hraw. destruct (Hv t l Hraw) as [df Hdf].
  exists df. by eapply lookup_weaken.
Qed.

Lemma fetched_analysis_mono h h' ticker :
  raw_valid raw_data h → h ⊆ h' →
  fetched_analysis fm raw_data h' ticker = fetched_analysis fm raw_data h ticker.
Proof.
  intros Hv Hsub. unfold fetched_analysis.
  destruct (raw_data !! ticker) as [l|] eqn:Hraw; [|done]. cbn.
  destruct (Hv ticker l Hraw) as [df Hdf].
  by rewrite Hdf, (lookup_weaken _ _ _ _ Hdf Hsub).
Qed.

(** A loop that ends without an exception has appended, in the order of the
    tickers, the analysis of the frame fetched for each ticker that has
    one. *)
Lemma analyze_all_Ok tickers acc h res h' :
  raw_valid raw_data h →
  analyze_all fm raw_data tickers acc h = (Ok res, h') →
  res = acc ++ omap (fetched_analysis fm raw_data h) tickers.
Proof.
  revert acc h. induction tickers as [|t ts IH]; intros acc h Hv Hrun.
  { cbn in Hrun. injection Hrun as <- <-. by rewrite app_nil_r. }
  cbn [omap list_omap].
  destruct (raw_data !! t) as [l|] eqn:Hraw.
  - destruct (h !! l) as [df|] eqn:Hl;
      [|by rewrite (analyze_all_dangling t ts acc h l) in Hrun].
    rewrite (analyze_all_step t ts acc h l df) in Hrun by done.
    unfold fetched_analysis at 1. rewrite Hraw. cbn. rewrite Hl. cbn.
    destruct (columns df !! "Adj Close") as [adj|]; [|done]. cbn in *.
    destruct (index df); [done|].
    pose proof (insert_fresh_subseteq h (analysed_frame fm df adj)) as Hsub.
    apply IH in Hrun; [|by eapply raw_valid_mono].
    rewrite Hrun, <- app_assoc. cbn. do 2 f_equal.
    apply omap_pointwise. intros t'. by apply fetched_analysis_mono.
  - rewrite analyze_all_skip in Hrun by done.
    unfold fetched_analysis at 1. rewrite Hraw. cbn. by apply IH.
Qed.

(** [main] on fetched data: the analyses of the first 20 tickers that have
    data, and the suggestion made from them. *)
Lemma main_Ok fetched h all best h' :
  raw_valid raw_data h →
  main fm fetched raw_data h = (Ok (all, best), h') →
  all = omap (fetched_analysis fm raw_data h) (take 20 fetched)
  ∧ suggest_best_trade all = Ok best.
Proof.
  intros Hv. unfold main.
  destruct (analyze_all fm raw_data (take 20 fetched) [] h) as [[res|e] h1] eqn:Hrun.
  - rewrite (bind_Ok _ _ h res h1) by done.
    apply analyze_all_Ok in Hrun; [|done]. cbn in Hrun. subst res.
    unfold bind, lift, ret.
    destruct (suggest_best_trade _) as [b|e] eqn:Hs; [|done].
    by intros [= <- <- <-].
  - by rewrite (bind_Raise _ _ h e h1).
Qed.

Lemma main_grows fetched h : h ⊆ (main fm fetched raw_data h).2.
Proof.
  unfold main, bind, lift, ret.
  pose proof (analyze_all_grows (take 20 fetched) [] h) as Hsub.
  destruct (analyze_all fm raw_data (take 20 fetched) [] h) as [[res|e] h1];
    [|done].
  by destruct (suggest_best_trade res).
Qed.

End MainLoop.

(** ** Short series *)

Lemma analysis_of_short fm ticker (adj : Series) :
  length adj < 5 →
  is_nan (SMA_5_Day (analysis_of fm ticker adj)) = true
  ∧ Trade_Signal (analysis_of fm ticker adj) = false
  ∧ Reason (analysis_of fm ticker adj) = "No strong bullish signal".
Proof.
  intros Hlen. unfold analysis_of. cbn.
  rewrite (rolling_mean_last_short 5 adj Hlen), ltb_nan_l. by cbn.
Qed.

(** The claim C4 fails: a series of three bars is analysed without an
    error, with a missing average and no signal, and [main] keeps its
    analysis. *)
Lemma short_series_not_rejected :
  (analyze_stock NoFill "S" 1%positive heap_short).1 = Ok analysis_short
  ∧ (analyze_stock Pad "S" 1%positive heap_short).1 = Ok analysis_short
  ∧ (main NoFill ["S"] {[ "S" := 1%positive ]} heap_short).1
    = Ok ([analysis_short], NoCandidate).
Proof. vm_compute. repeat split; reflexivity. Qed.

(** C4, amended. A series of one to four bars raises no error: its
    analysis has no trailing average, no trade signal and the reason "No
    strong bullish signal", and a run of [main] that ends without an
    exception has this analysis in its collection when the ticker is among
    the first twenty. *)
Theorem short_series_defaulted fm fetched raw_data (h : gmap loc DataFrame)
    ticker l df adj :
  raw_data !! ticker = Some l →
  h !! l = Some df →
  columns df !! "Adj Close" = Some adj →
  length (index df) = length adj →
  0 < length adj < 5 →
  ∃ a,
    (analyze_stock fm ticker l h).1 = Ok a
    ∧ is_nan (SMA_5_Day a) = true
    ∧ Trade_Signal a = false
    ∧ Reason a = "No strong bullish signal"
    ∧ (ticker ∈ take 20 fetched → raw_valid raw_data h →
       ∀ all best h', main fm fetched raw_data h = (Ok (all, best), h') →
       a ∈ all).
Proof.
  intros Hraw Hl Hadj Hidx [Hpos Hlen].
  exists (analysis_of fm ticker adj). split.
  { rewrite (analyze_stock_run fm ticker l h df adj) by done. cbn.
    destruct (index df); [cbn in Hidx; lia|done]. }
  destruct (analysis_of_short fm ticker adj Hlen) as (Hm & Hs & Hr).
  repeat split; try done.
  intros Hin Hv all best h' Hmain.
  apply main_Ok in Hmain as [-> _]; [|done].
  apply list_elem_of_omap. exists ticker. split; [done|].
  unfold fetched_analysis. rewrite Hraw. cbn. rewrite Hl. cbn. by rewrite Hadj.
Qed.

Lemma short_series_defaulted_witness :
  ∃ a,
    (analyze_stock NoFill "S" 1%positive heap_short).1 = Ok a
    ∧ is_nan (SMA_5_Day a) = true
    ∧ Trade_Signal a = false
    ∧ Reason a = "No strong bullish signal"
    ∧ ("S" ∈ take 20 ["S"] → raw_valid {[ "S" := 1%positive ]} heap_short →
       ∀ all best h',
         main NoFill ["S"] {[ "S" := 1%positive ]} heap_short
         = (Ok (all, best), h') →
         a ∈ all).
Proof.
  apply (short_series_defaulted NoFill ["S"] {[ "S" := 1%positive ]} heap_short
           "S" 1%positive (price_frame [10; 11; 12]%float) [10; 11; 12]%float).
  - reflexivity.
  - reflexivity.
  - reflexivity.
  - reflexivity.
  - cbn. lia.
Defined.

(** ** A close of zero *)

Lemma is_zero_not_nan (z : float) : is_zero z = true → is_nan z = false.
Proof.
  unfold is_zero. rewrite is_nan_spec, FloatAxioms.eqb_spec.
  intros [s ->]%SFeqb_zero. reflexivity.
Qed.

(** The claim C5 fails: with a close of zero before the last bar the
    analysis is returned, the last return being infinite. *)
Lemma zero_close_not_rejected :
  (analyze_stock NoFill "Z" 1%positive heap_zero).1 = Ok analysis_zero
  ∧ (analyze_stock Pad "Z" 1%positive heap_zero).1 = Ok analysis_zero
  ∧ Last_Return analysis_zero = infinity.
Proof. vm_compute. repeat split; reflexivity. Qed.

(** C5, amended. A close of zero before a bar raises no error: the analysis
    is returned, and the return of that bar is plus or minus infinity, or
    missing. *)
Theorem zero_close_no_error fm ticker l (h : gmap loc DataFrame) df adj i z :
  h !! l = Some df →
  columns df !! "Adj Close" = Some adj →
  length (index df) = length adj →
  adj !! i = Some z →
  is_zero z = true →
  S i < length adj →
  ∃ a df' returns r,
    analyze_stock fm ticker l h = (Ok a, <[l := df']> h)
    ∧ columns df' !! "Daily Return %" = Some returns
    ∧ returns !! S i = Some r
    ∧ (r = infinity ∨ r = neg_infinity ∨ r = nan).
Proof.
  intros Hl Hadj Hidx Hz Hz0 Hi.
  destruct (lookup_lt_is_Some_2 (filled fm adj) (S i)) as [cur Hcur];
    [by rewrite length_filled|].
  pose proof (filled_lookup_present fm adj i z Hz (is_zero_not_nan z Hz0)) as Hprev.
  exists (analysis_of fm ticker adj), (analysed_frame fm df adj),
    (returns_of fm adj), ((cur / z - 1) * 100)%float.
  split.
  { rewrite (analyze_stock_run fm ticker l h df adj) by done.
    destruct (index df); [cbn in Hidx; lia|done]. }
  split; [cbn; by rewrite lookup_insert_ne, lookup_insert_eq|].
  split; [by apply returns_of_lookup_S|].
  by apply pct_of_zero_close.
Qed.

Lemma zero_close_no_error_witness :
  ∃ a df' returns r,
    analyze_stock NoFill "Z" 1%positive heap_zero
    = (Ok a, <[1%positive := df']> heap_zero)
    ∧ columns df' !! "Daily Return %" = Some returns
    ∧ returns !! 1 = Some r
    ∧ (r = infinity ∨ r = neg_infinity ∨ r = nan).
Proof.
  apply (zero_close_no_error NoFill "Z" 1%positive heap_zero
           (price_frame [0; 1]%float) [0; 1]%float 0 0%float).
  - reflexivity.
  - reflexivity.
  - reflexivity.
  - reflexivity.
  - reflexivity.
  - cbn. lia.
Defined.

(** ** What the analysis writes *)

(** The claim C9 fails: the frame handed to [analyze_stock] has two more
    columns after the call. *)
Lemma analyze_stock_adds_columns :
  (heap_example !! 1%positive ≫= λ df, columns df !! "SMA_5") = None
  ∧ ((analyze_stock NoFill "T" 1%positive heap_example).2 !! 1%positive
     ≫= λ df, columns df !! "SMA_5")
    = Some [nan; nan; nan; nan; 11; 11.8]%float
  ∧ (analyze_stock NoFill "T" 1%positive heap_example).2 !! 1%positive
    ≠ heap_example !! 1%positive.
Proof.
  split; [vm_compute; reflexivity|]. split; [vm_compute; reflexivity|].
  intros Heq.
  apply (f_equal (λ o : option DataFrame, o ≫= λ df, columns df !! "SMA_5")) in Heq.
  vm_compute in Heq. discriminate.
Qed.

(** C9, amended. [analyze_stock] changes the frame it is given in place:
    it writes the columns "Daily Return %" and "SMA_5", each with a value per
    row of the price column, and leaves the index, every other column, the
    price column among them, and every other frame as they were; [main]
    analyses a copy of each fetched frame, so the frames of the store it
    starts from are unchanged when it ends. *)
Theorem analyze_stock_frame fm ticker l (h : gmap loc DataFrame) df
    fetched raw_data :
  h !! l = Some df →
  (∃ df',
     (analyze_stock fm ticker l h).2 !! l = Some df'
     ∧ index df' = index df
     ∧ (∀ c, c ≠ "Daily Return %" → c ≠ "SMA_5" →
        columns df' !! c = columns df !! c)
     ∧ columns df' !! "Adj Close" = columns df !! "Adj Close"
     ∧ (∀ adj, columns df !! "Adj Close" = Some adj →
        columns df' !! "Daily Return %" = Some (returns_of fm adj)
        ∧ ∃ sma, columns df' !! "SMA_5" = Some sma
                 ∧ length sma = length adj))
  ∧ (∀ l', l' ≠ l → (analyze_stock fm ticker l h).2 !! l' = h !! l')
  ∧ h ⊆ (main fm fetched raw_data h).2.
Proof.
  intros Hl. split; [|split; [|apply main_grows]].
  - destruct (columns df !! "Adj Close") as [adj|] eqn:Hadj.
    + rewrite (analyze_stock_run fm ticker l h df adj) by done. cbn.
      exists (analysed_frame fm df adj).
      split; [apply lookup_insert_eq|]. split; [done|].
      split; [intros c H1 H2; cbn; by rewrite !lookup_insert_ne|].
      split; [cbn; by rewrite !lookup_insert_ne|].
      intros adj' [= <-]. cbn.
      split; [by rewrite lookup_insert_ne, !lookup_insert_eq|].
      exists (rolling_mean 5 adj).
      split; [apply lookup_insert_eq|apply length_rolling_mean].
    + rewrite (analyze_stock_no_price fm ticker l h df) by done. cbn.
      exists df. by rewrite Hadj.
  - intros l' Hne.
    destruct (columns df !! "Adj Close") as [adj|] eqn:Hadj.
    + rewrite (analyze_stock_run fm ticker l h df adj) by done. cbn.
      by rewrite lookup_insert_ne.
    + by rewrite (analyze_stock_no_price fm ticker l h df).
Qed.

Lemma analyze_stock_frame_witness :
  (∃ df',
     (analyze_stock NoFill "T" 1%positive heap_example).2 !! 1%positive = Some df'
     ∧ index df' = index (price_frame closes_example)
     ∧ (∀ c, c ≠ "Daily Return %" → c ≠ "SMA_5" →
        columns df' !! c = columns (price_frame closes_example) !! c)
     ∧ columns df' !! "Adj Close"
       = columns (price_frame closes_example) !! "Adj Close"
     ∧ (∀ adj, columns (price_frame closes_example) !! "Adj Close" = Some adj →
        columns df' !! "Daily Return %" = Some (returns_of NoFill adj)
        ∧ ∃ sma, columns df' !! "SMA_5" = Some sma
                 ∧ length sma = length adj))
  ∧ (∀ l', l' ≠ 1%positive →
     (analyze_stock NoFill "T" 1%positive heap_example).2 !! l'
     = heap_example !! l')
  ∧ heap_example
    ⊆ (main NoFill ["T"] {[ "T" := 1%positive ]} heap_example).2.
Proof.
  apply (analyze_stock_frame NoFill "T" 1%positive heap_example
           (price_frame closes_example) ["T"] {[ "T" := 1%positive ]}).
  reflexivity.
Defined.

(** ** Sorting *)

Section InsertionSort.

Context {A : Type} (lt : A → A → bool).

Lemma insert_by_perm x l : insert_by lt x l ≡ₚ x :: l.
Proof.
  induction l as [|y l IH]; cbn; [done|].
  destruct (lt x y); [done|]. rewrite IH. apply Permutation_swap.
Qed.

Lemma foldr_insert_perm l : foldr (insert_by lt) [] l ≡ₚ l.
Proof.
  induction l as [|x l IH]; cbn; [done|]. by rewrite insert_by_perm, IH.
Qed.

(** Sorting the reversed list takes the elements from the last to the
    first. *)
Lemma stable_sort_rev l : stable_sort lt (rev l) = foldr (insert_by lt) [] l.
Proof.
  unfold stable_sort.
  rewrite <- (fold_left_rev_right (insert_by lt) (rev l)).
  by rewrite rev_involutive.
Qed.




(** On elements that [lt] orders, the result is ascending. *)
Variable P : A → Prop.
Hypothesis lt_asym : ∀ x y, P x → P y → lt x y = true → lt y x = false.
Hypothesis lt_neg_trans :
  ∀ x y z, P x → P y → P z → lt x y = false → lt y z = false → lt x z = false.

Lemma insert_by_sorted x s :
  P x → Forall P s →
  StronglySorted (λ a b, lt b a = false) s →
  StronglySorted (λ a b, lt b a = false) (insert_by lt x s).
Proof.
  intros Hx HP Hs. induction Hs as [|y s Hs IH Hy]; cbn.
  - repeat constructor.
  - apply Forall_cons in HP as [HPy HPs].
    destruct (lt x y) eqn:Hxy.
    + constructor; [by constructor|].
      assert (lt y x = false) as Hyx by by apply lt_asym.
      constructor; [done|].
      rewrite Forall_forall in Hy, HPs. apply Forall_forall. intros z Hz.
      apply (lt_neg_trans z y x); auto.
    + constructor; [by apply IH|].
      rewrite insert_by_perm. by constructor.
Qed.

Lemma foldr_insert_sorted l :
  Forall P l → StronglySorted (λ a b, lt b a = false) (foldr (insert_by lt) [] l).
Proof.
  induction 1 as [|x l Hx Hl IH]; cbn; [constructor|].
  apply insert_by_sorted; [done| |done]. by rewrite foldr_insert_perm.
Qed.

(** Where an element is placed: behind elements it is not below, before
    elements it is below. *)
Lemma insert_by_split x s :
  Forall P (x :: s) → StronglySorted (λ a b, lt b a = false) s →
  ∃ s1 s2, s = s1 ++ s2 ∧ insert_by lt x s = s1 ++ x :: s2
    ∧ Forall (λ y, lt x y = true) s2.
Proof.
  intros [Hx HP]%Forall_cons Hs. induction Hs as [|y s Hs IH Hy]; cbn.
  - by exists [], [].
  - apply Forall_cons in HP as [HPy HPs].
    destruct (lt x y) eqn:Hxy.
    + exists [], (y :: s). split; [done|]. split; [done|].
      constructor; [done|].
      rewrite Forall_forall in Hy, HPs. apply Forall_forall. intros z Hz.
      destruct (lt x z) eqn:Hxz; [done|].
      rewrite (lt_neg_trans x z y) in Hxy; auto.
    + destruct (IH HPs) as (s1 & s2 & -> & -> & H2).
      by exists (y :: s1), s2.
Qed.

(** Stability: the elements of a class whose members are not below one
    another keep their order (here reversed, the list being taken from its
    end). *)
Lemma foldr_insert_filter (f : A → bool) l :
  (∀ x y, f x = true → f y = true → lt x y = false) →
  Forall P l →
  List.filter f (foldr (insert_by lt) [] l) = rev (List.filter f l).
Proof.
  intros Hf HP. induction HP as [|x l Hx Hl IH]; cbn; [done|].
  destruct (insert_by_split x (foldr (insert_by lt) [] l))
    as (s1 & s2 & Hs & -> & H2).
  { constructor; [done|]. by rewrite foldr_insert_perm. }
  { by apply foldr_insert_sorted. }
  rewrite Hs, List.filter_app in IH.
  rewrite List.filter_app. cbn. destruct (f x) eqn:Hfx.
  - assert (List.filter f s2 = []) as Hnil.
    { clear -H2 Hf Hfx. induction H2 as [|y s2 Hy _ IH]; cbn; [done|].
      destruct (f y) eqn:Hfy; [|done]. by rewrite (Hf x y) in Hy. }
    rewrite Hnil in *. cbn. by rewrite <- IH, app_nil_r.
  - done.
Qed.

End InsertionSort.

Lemma StronglySorted_rev {A} (R : A → A → Prop) (l : list A) :
  StronglySorted R l → StronglySorted (flip R) (rev l).
Proof.
  induction 1 as [|x l Hs IH Hx]; cbn; [constructor|].
  apply StronglySorted_app_2; [|done|repeat constructor].
  intros y z Hy ->%list_elem_of_singleton. unfold flip.
  rewrite Forall_forall in Hx. apply Hx.
  apply list_elem_of_In, in_rev. by apply list_elem_of_In.
Qed.

(** ** The ranking *)

Section Keys.

Implicit Types k : Z * float.

(** Equal floats are not below one another, so the second comparison of the
    pair decides as [<?] on the returns does. *)
Lemma tuple_lt_alt k1 k2 :
  tuple_lt k1 k2
  = if (k1.1 =? k2.1)%Z then (k1.2 <? k2.2)%float else (k1.1 <? k2.1)%Z.
Proof.
  unfold tuple_lt. destruct (k1.1 =? k2.1)%Z; cbn; [|done].
  destruct (k1.2 =? k2.2)%float eqn:E; cbn; [|done]. by rewrite eqb_ltb.
Qed.



Lemma tuple_lt_false_key_le k1 k2 :
  is_nan k1.2 = false → is_nan k2.2 = false →
  tuple_lt k1 k2 = false → key_le k2 k1 = true.
Proof.
  rewrite tuple_lt_alt. unfold key_le. intros H1 H2.
  destruct (Z.eqb_spec k2.1 k1.1), (Z.eqb_spec k1.1 k2.1),
    (Z.ltb_spec k1.1 k2.1), (Z.ltb_spec k2.1 k1.1); cbn; try done; try lia.
  by apply ltb_false_leb.
Qed.

Lemma tuple_lt_asym k1 k2 : tuple_lt k1 k2 = true → tuple_lt k2 k1 = false.
Proof.
  rewrite !tuple_lt_alt.
  destruct (Z.eqb_spec k2.1 k1.1), (Z.eqb_spec k1.1 k2.1),
    (Z.ltb_spec k1.1 k2.1), (Z.ltb_spec k2.1 k1.1); cbn; try done; try lia.
  apply ltb_asym.
Qed.

Lemma tuple_lt_neg_trans k1 k2 k3 :
  is_nan k2.2 = false →
  tuple_lt k1 k2 = false → tuple_lt k2 k3 = false → tuple_lt k1 k3 = false.
Proof.
  rewrite !tuple_lt_alt. intros Hn.
  destruct (Z.eqb_spec k1.1 k2.1), (Z.eqb_spec k2.1 k3.1),
    (Z.eqb_spec k1.1 k3.1), (Z.ltb_spec k1.1 k2.1), (Z.ltb_spec k2.1 k3.1),
    (Z.ltb_spec k1.1 k3.1); cbn; try done; try lia.
  by apply ltb_neg_trans.
Qed.

Lemma key_eq_refl k : is_nan k.2 = false → key_eq k k = true.
Proof. intros Hn. unfold key_eq. by rewrite Z.eqb_refl, eqb_refl. Qed.

Lemma key_lt_not_eq k1 k2 : key_lt k1 k2 = true → key_eq k1 k2 = false.
Proof.
  unfold key_lt, key_eq.
  destruct (Z.eqb_spec k1.1 k2.1), (Z.ltb_spec k1.1 k2.1); cbn; try done; try lia.
  apply ltb_eqb.
Qed.

Lemma key_lt_not_le k1 k2 : key_lt k1 k2 = true → key_le k2 k1 = false.
Proof.
  unfold key_lt, key_le.
  destruct (Z.eqb_spec k2.1 k1.1), (Z.eqb_spec k1.1 k2.1),
    (Z.ltb_spec k1.1 k2.1), (Z.ltb_spec k2.1 k1.1); cbn; try done; try lia.
  apply ltb_leb.
Qed.

Lemma key_le_antisym k1 k2 :
  key_le k1 k2 = true → key_le k2 k1 = true → key_eq k1 k2 = true.
Proof.
  unfold key_le, key_eq.
  destruct (Z.eqb_spec k2.1 k1.1), (Z.eqb_spec k1.1 k2.1),
    (Z.ltb_spec k1.1 k2.1), (Z.ltb_spec k2.1 k1.1); cbn; try done; try lia.
  apply leb_antisym.
Qed.

Lemma key_eq_class k1 k2 k :
  key_eq k1 k = true → key_eq k2 k = true → tuple_lt k1 k2 = false.
Proof.
  rewrite tuple_lt_alt. unfold key_eq.
  intros [H1 E1]%andb_true_iff [H2 E2]%andb_true_iff.
  apply Z.eqb_eq in H1, H2.
  rewrite (proj2 (Z.eqb_eq k1.1 k2.1)) by congruence.
  by apply (eqb_class _ _ k.2).
Qed.

End Keys.

Section Ranker.

Implicit Types (a b c : Analysis) (analyses : list Analysis).

Lemma sorted_reverse_foldr (l : list Analysis) :
  sorted sort_key tuple_lt true l = rev (foldr (insert_by by_key) [] l).
Proof. unfold sorted. by rewrite (stable_sort_rev by_key). Qed.

Lemma filter_signal_elem_of analyses c :
  c ∈ List.filter Trade_Signal analyses ↔ c ∈ analyses ∧ Trade_Signal c = true.
Proof. rewrite !list_elem_of_In. apply filter_In. Qed.

Lemma candidates_comparable analyses :
  Forall comparable analyses →
  Forall (λ a, is_nan (Last_Return a) = false) (List.filter Trade_Signal analyses).
Proof.
  rewrite !Forall_forall. intros H c [Hc Hs]%filter_signal_elem_of. by apply H.
Qed.

(** The sorted candidates, from the greatest key down. *)
Lemma sorted_candidates_descending (l : list Analysis) :
  Forall (λ a, is_nan (Last_Return a) = false) l →
  StronglySorted (λ x y, key_le (sort_key y) (sort_key x) = true)
    (sorted sort_key tuple_lt true l).
Proof.
  intros Hl. rewrite sorted_reverse_foldr.
  assert (StronglySorted (λ x y, by_key y x = false)
            (foldr (insert_by by_key) [] l)) as Hs.
  { apply (foldr_insert_sorted by_key (λ a, is_nan (Last_Return a) = false));
      [| |done].
    - intros x y _ _. apply tuple_lt_asym.
    - intros x y z _ Hy _. by apply tuple_lt_neg_trans. }
  apply StronglySorted_rev in Hs.
  assert (Forall (λ a, is_nan (Last_Return a) = false)
            (rev (foldr (insert_by by_key) [] l))) as Hn.
  { rewrite Forall_forall in Hl. apply Forall_forall. intros x Hx. apply Hl.
    rewrite <- (foldr_insert_perm by_key l).
    apply list_elem_of_In, in_rev. by apply list_elem_of_In. }
  revert Hn. induction Hs as [|x s Hs IH Hx]; intros Hn; [constructor|].
  apply Forall_cons in Hn as [Hnx Hns].
  constructor; [by apply IH|].
  rewrite Forall_forall in Hx, Hns. apply Forall_forall. intros y Hy.
  apply tuple_lt_false_key_le; [done|by apply Hns|by apply Hx].
Qed.

(** X18. The sort is stable: the candidates of one key come out in the
    order they have in the input. *)
Lemma sorted_stable (l : list Analysis) k :
  Forall (λ a, is_nan (Last_Return a) = false) l →
  List.filter (λ c, key_eq (sort_key c) k) (sorted sort_key tuple_lt true l)
  = List.filter (λ c, key_eq (sort_key c) k) l.
Proof.
  intros Hl. rewrite sorted_reverse_foldr, filter_rev.
  rewrite (foldr_insert_filter by_key (λ a, is_nan (Last_Return a) = false));
    [apply rev_involutive| | | |done].
  - intros x y _ _. apply tuple_lt_asym.
  - intros x y z _ Hy _. by apply tuple_lt_neg_trans.
  - intros x y. apply key_eq_class.
Qed.

(** Whatever stable sort produces the descending list, its first element is
    the earliest candidate of the greatest key: the choice of the ranker
    does not rest on the sorting algorithm. *)
Lemma stable_descending_head (before after s : list Analysis) b :
  Forall (λ c, is_nan (Last_Return c) = false) s →
  is_nan (Last_Return b) = false →
  Forall (λ c, key_lt (sort_key c) (sort_key b) = true) before →
  Forall (λ c, key_le (sort_key c) (sort_key b) = true) after →
  StronglySorted (λ x y, key_le (sort_key y) (sort_key x) = true) s →
  (∀ k, List.filter (λ c, key_eq (sort_key c) k) s
        = List.filter (λ c, key_eq (sort_key c) k) (before ++ b :: after)) →
  head s = Some b.
Proof.
  intros Hn Hb Hbefore Hafter Hsorted Hstable.
  assert (List.filter (λ c, key_eq (sort_key c) (sort_key b)) s
          = b :: List.filter (λ c, key_eq (sort_key c) (sort_key b)) after)
    as Hclass.
  { rewrite Hstable, List.filter_app. cbn.
    rewrite (key_eq_refl (sort_key b)) by done.
    replace (List.filter _ before) with (@nil Analysis); [done|].
    clear -Hbefore. induction Hbefore as [|c l Hc _ IH]; cbn; [done|].
    by rewrite (key_lt_not_eq _ _ Hc). }
  destruct s as [|x rest]; [done|]. cbn. f_equal.
  apply Forall_cons in Hn as [Hx _].
  apply StronglySorted_inv in Hsorted as [_ Hmax].
  assert (b ∈ x :: rest) as Hbs.
  { apply list_elem_of_In.
    apply (filter_In (λ c, key_eq (sort_key c) (sort_key b)) b (x :: rest)).
    rewrite Hclass. by left. }
  assert (x ∈ before ++ b :: after) as Hxc.
  { apply list_elem_of_In.
    apply (filter_In (λ c, key_eq (sort_key c) (sort_key x)) x
             (before ++ b :: after)).
    rewrite <- Hstable. cbn. rewrite (key_eq_refl (sort_key x)) by done.
    by left. }
  assert (key_le (sort_key b) (sort_key x) = true) as Hbx.
  { apply elem_of_cons in Hbs as [->|Hin].
    - apply tuple_lt_false_key_le; try done.
      rewrite tuple_lt_alt, Z.eqb_refl. apply ltb_irrefl.
    - rewrite Forall_forall in Hmax. by apply Hmax. }
  assert (key_eq (sort_key x) (sort_key b) = true) as Hxb.
  { apply elem_of_app in Hxc as [Hin|[->|Hin]%elem_of_cons].
    - rewrite Forall_forall in Hbefore.
      by rewrite (key_lt_not_le _ _ (Hbefore x Hin)) in Hbx.
    - by apply key_eq_refl.
    - rewrite Forall_forall in Hafter. apply key_le_antisym; auto. }
  cbn in Hclass. rewrite Hxb in Hclass. by injection Hclass.
Qed.

(** An analysis of [analyze_stock] with a signal has a last return above
    zero, a number. *)
Lemma analysis_of_comparable fm ticker (adj : Series) :
  comparable (analysis_of fm ticker adj).
Proof.
  unfold comparable, analysis_of. cbn.
  intros [_ H]%andb_true_iff. by apply ltb_not_nan in H as [_ H].
Qed.

Lemma fetched_analyses_comparable fm raw_data (h : gmap loc DataFrame) tickers :
  Forall comparable (omap (fetched_analysis fm raw_data h) tickers).
Proof.
  apply Forall_forall. intros a (t & _ & Ht)%list_elem_of_omap.
  unfold fetched_analysis in Ht.
  destruct (raw_data !! t) as [l|]; [|done]. cbn in Ht.
  destruct (h !! l) as [df|]; [|done]. cbn in Ht.
  destruct (columns df !! "Adj Close") as [adj|]; [|done].
  injection Ht as <-. apply analysis_of_comparable.
Qed.

End Ranker.

Lemma StronglySorted_weaken {A} (R R' : A → A → Prop) (l : list A) :
  (∀ x y, R x y → R' x y) → StronglySorted R l → StronglySorted R' l.
Proof.
  intros HR. induction 1 as [|x l _ IH Hx]; constructor; [done|].
  eapply Forall_impl; [exact Hx|]. intros y. apply HR.
Qed.

(** C3. The ranker looks at the records that carry a signal only; without
    any it reports that there is no candidate, which is a result and not an
    exception; otherwise it reports the first of the candidates sorted from
    the greatest key down. The order is the one of the record fields: a
    record comes before another only if its trend score is greater, or the
    scores are equal and its last return is not smaller. The best candidate
    is a record of the input with a signal, and every candidate has a
    smaller trend score, or the same trend score and a last return that is
    not greater. *)
Theorem ranker_selects_best (analyses : list Analysis) :
  Forall comparable analyses →
  (List.filter Trade_Signal analyses = [] →
   suggest_best_trade analyses = Ok NoCandidate)
  ∧ (List.filter Trade_Signal analyses ≠ [] →
     ∃ best rest,
       suggest_best_trade analyses = Ok (BestCandidate best)
       ∧ sorted sort_key tuple_lt true (List.filter Trade_Signal analyses)
         = best :: rest
       ∧ best :: rest ≡ₚ List.filter Trade_Signal analyses
       ∧ (∀ c, c ∈ best :: rest ↔ c ∈ analyses ∧ Trade_Signal c = true)
       ∧ StronglySorted
           (λ x y, (Trend_Score y < Trend_Score x)%Z
                   ∨ (Trend_Score y = Trend_Score x
                      ∧ (Last_Return y <=? Last_Return x)%float = true))
           (best :: rest)
       ∧ (∀ c, c ∈ analyses → Trade_Signal c = true →
          (Trend_Score c < Trend_Score best)%Z
          ∨ (Trend_Score c = Trend_Score best
             ∧ (Last_Return c <=? Last_Return best)%float = true))).
Proof.
  intros Hcmp. unfold suggest_best_trade.
  split; [by intros ->|]. intros Hne.
  pose proof (candidates_comparable analyses Hcmp) as Hn.
  pose proof (sorted_candidates_descending _ Hn) as Hsorted.
  assert (sorted sort_key tuple_lt true (List.filter Trade_Signal analyses)
          ≡ₚ List.filter Trade_Signal analyses) as Hperm.
  { rewrite sorted_reverse_foldr, <- (Permutation_rev _).
    apply foldr_insert_perm. }
  destruct (sorted sort_key tuple_lt true (List.filter Trade_Signal analyses))
    as [|best rest] eqn:Hs.
  { apply Permutation_nil_l in Hperm. by rewrite Hperm in Hne. }
  exists best, rest.
  assert (∀ c, c ∈ best :: rest ↔ c ∈ analyses ∧ Trade_Signal c = true) as Hmem.
  { intros c. rewrite Hperm. apply filter_signal_elem_of. }
  assert (∀ c b, key_le (sort_key c) (sort_key b) = true →
            (Trend_Score c < Trend_Score b)%Z
            ∨ (Trend_Score c = Trend_Score b
               ∧ (Last_Return c <=? Last_Return b)%float = true)) as Hfields.
  { intros c b. unfold key_le, sort_key. cbn.
    intros [Hlt|[Heq Hle]%andb_true_iff]%orb_true_iff.
    - left. by apply Z.ltb_lt.
    - right. split; [by apply Z.eqb_eq|done]. }
  split; [by destruct (List.filter Trade_Signal analyses)|].
  split; [done|]. split; [done|]. split; [done|]. split.
  { eapply StronglySorted_weaken; [|exact Hsorted].
    intros x y Hxy. by apply Hfields. }
  intros c Hc Hsig. apply Hfields.
  assert (c ∈ best :: rest) as [->|Hin]%elem_of_cons by by apply Hmem.
  - assert (Trade_Signal best = true ∧ is_nan (Last_Return best) = false)
      as [_ Hb].
    { split; [done|]. rewrite Forall_forall in Hcmp. by apply Hcmp. }
    apply tuple_lt_false_key_le; try done. rewrite tuple_lt_alt.
    rewrite Z.eqb_refl. apply ltb_irrefl.
  - apply StronglySorted_inv in Hsorted as [_ Hall].
    rewrite Forall_forall in Hall. by apply Hall.
Qed.

(** On the records A (score 3, return 2), B (score 4, return 1) and C (the
    key of B, no signal) the theorem leaves B as the only possible choice. *)
Lemma ranker_selects_best_witness :
  suggest_best_trade ranker_example = Ok (BestCandidate rec_B).
Proof.
  destruct (ranker_selects_best ranker_example) as [_ Hbest].
  { repeat constructor; intros _; reflexivity. }
  destruct Hbest as (best & rest & Hs & _ & _ & Hmem & _ & Hmax);
    [discriminate|].
  rewrite Hs. do 2 f_equal.
  destruct (proj1 (Hmem best)) as [Hin Hsig]; [by left|].
  assert ((Trend_Score rec_B < Trend_Score best)%Z
          ∨ (Trend_Score rec_B = Trend_Score best
             ∧ (Last_Return rec_B <=? Last_Return best)%float = true)) as HB.
  { apply Hmax; [by right; left|reflexivity]. }
  apply elem_of_cons in Hin as [->|Hin].
  { destruct HB as [Hlt|[Heq _]]; [cbn in Hlt; lia|discriminate]. }
  apply elem_of_cons in Hin as [->|Hin]; [done|].
  apply elem_of_cons in Hin as [->|Hin]; [discriminate|].
  by apply elem_of_nil in Hin.
Defined.



(** ** The run of [main] as a whole *)

(** The example of the specification: A is behind on the trend score and C
    carries no signal, so B is reported. *)
Lemma ranker_example_selects_B :
  suggest_best_trade ranker_example = Ok (BestCandidate rec_B).
Proof. vm_compute. reflexivity. Qed.

(** Without a record that carries a signal the ranker returns normally. *)
Lemma ranker_no_candidate :
  suggest_best_trade [] = Ok NoCandidate
  ∧ suggest_best_trade [rec_C] = Ok NoCandidate.
Proof. split; reflexivity. Qed.

(** The ranker never raises on the analyses of a run: they are comparable,
    and the suggestion of [main] is the one the ranker makes from them. *)
Lemma main_suggestion fm fetched raw_data (h h' : gmap loc DataFrame) all best :
  raw_valid raw_data h →
  main fm fetched raw_data h = (Ok (all, best), h') →
  Forall comparable all ∧ suggest_best_trade all = Ok best.
Proof.
  intros Hv Hmain. apply main_Ok in Hmain as [-> Hbest]; [|done].
  split; [apply fetched_analyses_comparable|done].
Qed.

(** A frame without rows: [df.iloc[-1]] raises, after the two columns have
    been written. *)
Lemma empty_series_raises fm ticker l (h : gmap loc DataFrame) df adj :
  h !! l = Some df → columns df !! "Adj Close" = Some adj → index df = [] →
  analyze_stock fm ticker l h
  = (Raise IndexError, <[l := analysed_frame fm df adj]> h).
Proof.
  intros Hl Hadj Hidx.
  rewrite (analyze_stock_run fm ticker l h df adj) by done. by rewrite Hidx.
Qed.

(** * Further properties of the program *)

(** ** [analyze_stock]: errors and reruns *)

(** X1. On a frame without the column "Adj Close", [analyze_stock] raises
    [KeyError] for that key at its first line: nothing is written and the
    store is as it was. *)
Theorem analyze_stock_missing_price fm ticker l (h : gmap loc DataFrame) df :
  h !! l = Some df →
  columns df !! "Adj Close" = None →
  analyze_stock fm ticker l h = (Raise (KeyError "Adj Close"), h)
  ∧ (analyze_stock fm ticker l h).2 !! l = Some df.
Proof.
  intros Hl Hadj.
  rewrite (analyze_stock_no_price fm ticker l h df) by done. by split.
Qed.

Lemma analyze_stock_missing_price_witness :
  analyze_stock NoFill "N" 1%positive {[ 1%positive := frame_no_price ]}
  = (Raise (KeyError "Adj Close"), {[ 1%positive := frame_no_price ]})
  ∧ (analyze_stock NoFill "N" 1%positive {[ 1%positive := frame_no_price ]}).2
      !! 1%positive = Some frame_no_price.
Proof.
  apply (analyze_stock_missing_price NoFill "N" 1%positive
           {[ 1%positive := frame_no_price ]} frame_no_price).
  - reflexivity.
  - reflexivity.
Defined.

(** X2. On a frame that has the price column and no rows, [analyze_stock]
    raises [IndexError] at [df.iloc[-1]], that is after the two assignments:
    the frame is left with the columns "Daily Return %" and "SMA_5", and with
    its price column and index as they were. *)
Theorem analyze_stock_no_rows fm ticker l (h : gmap loc DataFrame) df adj :
  h !! l = Some df →
  columns df !! "Adj Close" = Some adj →
  index df = [] →
  ∃ df',
    analyze_stock fm ticker l h = (Raise IndexError, <[l := df']> h)
    ∧ index df' = []
    ∧ columns df' !! "Adj Close" = Some adj
    ∧ columns df' !! "Daily Return %" = Some (scale 100 (pct_change fm adj))
    ∧ columns df' !! "SMA_5" = Some (rolling_mean 5 adj).
Proof.
  intros Hl Hadj Hidx. exists (analysed_frame fm df adj).
  split.
  { rewrite (analyze_stock_run fm ticker l h df adj) by done. by rewrite Hidx. }
  split; [done|]. cbn.
  split; [by rewrite !lookup_insert_ne|].
  split; [by rewrite lookup_insert_ne, lookup_insert_eq|].
  by rewrite lookup_insert_eq.
Qed.

Lemma analyze_stock_no_rows_witness :
  ∃ df',
    analyze_stock NoFill "E" 1%positive {[ 1%positive := frame_no_rows ]}
    = (Raise IndexError, <[1%positive := df']> {[ 1%positive := frame_no_rows ]})
    ∧ index df' = []
    ∧ columns df' !! "Adj Close" = Some []
    ∧ columns df' !! "Daily Return %" = Some (scale 100 (pct_change NoFill []))
    ∧ columns df' !! "SMA_5" = Some (rolling_mean 5 []).
Proof.
  apply (analyze_stock_no_rows NoFill "E" 1%positive
           {[ 1%positive := frame_no_rows ]} frame_no_rows []).
  - reflexivity.
  - reflexivity.
  - reflexivity.
Defined.

(** ** [analyze_stock]: the fields of the analysis *)

Section AnalysisFields.

Variable fm : fill_method.

Implicit Types (h : gmap loc DataFrame) (l : loc) (df : DataFrame) (adj : Series).

Lemma lookup_last_two (pre : Series) p c :
  (pre ++ [p; c]) !! length pre = Some p
  ∧ (pre ++ [p; c]) !! S (length pre) = Some c.
Proof.
  split; [apply list_lookup_middle; done|].
  change (pre ++ [p; c]) with (pre ++ [p] ++ [c]). rewrite app_assoc.
  apply list_lookup_middle. rewrite length_app. cbn. lia.
Qed.

(** The return of a row whose close and previous close are present. *)
Lemma returns_of_present adj i p c :
  adj !! i = Some p → adj !! S i = Some c →
  is_nan p = false → is_nan c = false →
  returns_of fm adj !! S i = Some ((c / p - 1) * 100)%float.
Proof.
  intros Hp Hc Hnp Hnc.
  apply returns_of_lookup_S; by apply filled_lookup_present.
Qed.

Lemma last_returns_of (pre : Series) p c :
  is_nan p = false → is_nan c = false →
  List.last (returns_of fm (pre ++ [p; c])) nan = ((c / p - 1) * 100)%float.
Proof.
  intros Hnp Hnc. destruct (lookup_last_two pre p c) as [Hp Hc].
  pose proof (returns_of_present _ _ _ _ Hp Hc Hnp Hnc) as Hr.
  pose proof (length_returns_of fm (pre ++ [p; c])) as Hlen.
  rewrite length_app in Hlen. cbn in Hlen.
  assert (returns_of fm (pre ++ [p; c]) ≠ []) as Hne.
  { intros Hnil. rewrite Hnil in Hlen. cbn in Hlen. lia. }
  pose proof (last_lookup_nan _ Hne) as Hlast.
  replace (length (returns_of fm (pre ++ [p; c])) - 1) with (S (length pre))
    in Hlast by lia.
  rewrite Hr in Hlast. by injection Hlast.
Qed.

Lemma filter_length_pos {A} (f : A → bool) (s : list A) x :
  x ∈ s → f x = true → 1 ≤ length (List.filter f s).
Proof.
  intros Hx Hf. induction Hx as [x s|x y s _ IH]; cbn.
  - rewrite Hf. cbn. lia.
  - specialize (IH Hf). destruct (f y); cbn; lia.
Qed.

Lemma filter_length_all {A} (f : A → bool) (s : list A) :
  length (List.filter f s) = length s → Forall (λ x, f x = true) s.
Proof.
  induction s as [|x s IH]; cbn; [constructor|].
  pose proof (length_filter_le f s).
  destruct (f x) eqn:Hf; cbn; intros Hlen; [|lia].
  constructor; [done|]. apply IH. lia.
Qed.

(** The last value of a series is within its last five. *)
Lemma last_in_tail (s : Series) :
  s ≠ [] → List.last s nan ∈ tail 5 s.
Proof.
  intros Hne. pose proof (last_lookup_nan s Hne) as Hlast.
  assert (0 < length s) by (destruct s; [done|cbn; lia]).
  unfold tail. apply (list_elem_of_lookup_2 _ (length s - 1 - (length s - 5))).
  rewrite lookup_drop. rewrite <- Hlast. f_equal. lia.
Qed.

(** The first return is missing, so it is never counted. *)
Lemma count_positive_returns adj :
  (count_positive (tail 5 (returns_of fm adj)) ≤ Z.of_nat (length adj - 1))%Z.
Proof.
  pose proof (length_returns_of fm adj) as Hlen.
  destruct (decide (length adj ≤ 5)) as [Hle|Hgt].
  - unfold tail. replace (length (returns_of fm adj) - 5) with 0 by lia.
    rewrite drop_0. unfold count_positive.
    destruct (returns_of fm adj) as [|x r] eqn:Hr; [cbn; lia|].
    assert (x = nan) as -> by (apply (returns_of_lookup_0 fm adj); by rewrite Hr).
    cbn [List.filter]. change (0 <? nan)%float with false.
    pose proof (length_filter_le (λ x, 0 <? x)%float r).
    cbn in Hlen. lia.
  - pose proof (count_positive_bounds 5 (returns_of fm adj)). lia.
Qed.

End AnalysisFields.

(** X4. When the last two closes are present, the analysis carries the
    ticker it was asked for, the last close of the price column, and as last
    return the change from the close before it, in percent:
    (last / previous - 1) * 100, whatever [pct_change] does with missing
    values. *)
Theorem analysis_last_fields fm ticker l (h : gmap loc DataFrame) df
    (pre : Series) p c :
  h !! l = Some df →
  columns df !! "Adj Close" = Some (pre ++ [p; c]) →
  index df ≠ [] →
  is_nan p = false →
  is_nan c = false →
  ∃ a h',
    analyze_stock fm ticker l h = (Ok a, h')
    ∧ Ticker a = ticker
    ∧ Last_Close a = c
    ∧ Last_Return a = ((c / p - 1) * 100)%float.
Proof.
  intros Hl Hadj Hidx Hnp Hnc.
  exists (analysis_of fm ticker (pre ++ [p; c])),
    (<[l := analysed_frame fm df (pre ++ [p; c])]> h).
  split.
  { rewrite (analyze_stock_run fm ticker l h df _ Hl Hadj).
    by destruct (index df). }
  split; [done|]. cbn. split.
  - change (pre ++ [p; c]) with (pre ++ [p] ++ [c]).
    rewrite app_assoc. apply last_last.
  - by apply last_returns_of.
Qed.

Lemma analysis_last_fields_witness :
  ∃ a h',
    analyze_stock Pad "T" 1%positive heap_example = (Ok a, h')
    ∧ Ticker a = "T"
    ∧ Last_Close a = 14%float
    ∧ Last_Return a = ((14 / 13 - 1) * 100)%float.
Proof.
  apply (analysis_last_fields Pad "T" 1%positive heap_example
           (price_frame closes_example) [10; 11; 9; 12]%float 13%float 14%float).
  - reflexivity.
  - reflexivity.
  - discriminate.
  - reflexivity.
  - reflexivity.
Defined.

(** X5. The first row has no return, so the trend score is at most the
    number of bars less one: a series of n bars, n up to five, scores at
    most n - 1. *)
Theorem trend_score_below_bars fm ticker l (h : gmap loc DataFrame) df adj a h' :
  h !! l = Some df →
  columns df !! "Adj Close" = Some adj →
  analyze_stock fm ticker l h = (Ok a, h') →
  (Trend_Score a ≤ Z.of_nat (length adj - 1))%Z.
Proof.
  intros Hl Hadj (df0 & adj0 & Hl0 & Hadj0 & _ & -> & _)%analyze_stock_Ok.
  assert (df0 = df) as -> by congruence.
  assert (adj0 = adj) as -> by congruence.
  apply count_positive_returns.
Qed.

Lemma trend_score_below_bars_witness :
  (Trend_Score analysis_short ≤ Z.of_nat (length [10; 11; 12]%float - 1))%Z.
Proof.
  apply (trend_score_below_bars NoFill "S" 1%positive heap_short
           (price_frame [10; 11; 12]%float) [10; 11; 12]%float analysis_short
           (analyze_stock NoFill "S" 1%positive heap_short).2).
  - reflexivity.
  - reflexivity.
  - vm_compute. reflexivity.
Defined.

(** X6. An analysis with a trade signal has a trend score of one at least:
    the last return, which the signal needs above zero, is one of the
    returns the score counts. *)
Theorem signal_needs_rising_day fm ticker l (h : gmap loc DataFrame) a h' :
  analyze_stock fm ticker l h = (Ok a, h') →
  Trade_Signal a = true →
  (1 ≤ Trend_Score a)%Z.
Proof.
  intros (df & adj & _ & _ & _ & -> & _)%analyze_stock_Ok.
  unfold analysis_of. cbn. intros [_ Hpos]%andb_true_iff.
  destruct (decide (returns_of fm adj = [])) as [Hnil|Hne].
  { rewrite Hnil in Hpos. apply ltb_not_nan in Hpos as [_ Hpos]. discriminate. }
  unfold count_positive.
  pose proof (filter_length_pos (λ x, 0 <? x)%float _ _
                (last_in_tail _ Hne) Hpos).
  lia.
Qed.

Lemma signal_needs_rising_day_witness : (1 ≤ Trend_Score analysis_example)%Z.
Proof.
  apply (signal_needs_rising_day NoFill "T" 1%positive heap_example
           analysis_example (analyze_stock NoFill "T" 1%positive heap_example).2).
  - vm_compute. reflexivity.
  - reflexivity.
Defined.

Lemma ffill_from_present p (s : Series) :
  Forall (λ x, is_nan x = false) s → ffill_from p s = s.
Proof.
  intros Hs. revert p. induction Hs as [|x s Hx _ IH]; intros p; cbn; [done|].
  by rewrite Hx, IH.
Qed.

Lemma window_at_last (adj : Series) :
  window_at 5 adj (length adj - 1) = drop (length adj - 5) adj.
Proof.
  unfold window_at. destruct adj as [|x adj]; [done|].
  cbn [length]. replace (S (S (length adj) - 1)) with (S (length adj)) by lia.
  rewrite take_ge by (cbn; lia). f_equal.
Qed.

Lemma prep_value_present x : notna (prep_value x) = true → is_nan x = false.
Proof.
  unfold prep_value, notna. destruct (is_infinity x); [done|].
  by destruct (is_nan x).
Qed.

(** X7. An analysis with a trade signal comes from a series of five bars at
    least whose last five closes are all present: with fewer bars, or with a
    missing close among the last five, the 5-day average is missing and
    nothing is above it. *)
Theorem signal_needs_five_closes fm ticker l (h : gmap loc DataFrame) df adj a h' :
  h !! l = Some df →
  columns df !! "Adj Close" = Some adj →
  analyze_stock fm ticker l h = (Ok a, h') →
  Trade_Signal a = true →
  5 ≤ length adj
  ∧ Forall (λ x, is_nan x = false) (drop (length adj - 5) adj).
Proof.
  intros Hl Hadj (df0 & adj0 & Hl0 & Hadj0 & _ & -> & _)%analyze_stock_Ok.
  assert (df0 = df) as -> by congruence.
  assert (adj0 = adj) as -> by congruence.
  unfold analysis_of. cbn. intros [Habove _]%andb_true_iff.
  apply ltb_not_nan in Habove as [Hsma _].
  destruct (decide (rolling_mean 5 adj = [])) as [Hnil|Hne].
  { rewrite Hnil in Hsma. discriminate. }
  pose proof (last_lookup_nan _ Hne) as Hlast.
  rewrite length_rolling_mean in Hlast.
  apply rolling_mean_lookup in Hlast as (st & Hmean & Hn); [|lia].
  rewrite <- (length_fmap prep_value adj), window_at_last in Hn.
  rewrite length_fmap, <- fmap_drop in Hn.
  set (win := drop (length adj - 5) adj) in *.
  assert (¬ (nobs st < 5)%Z) as Hfive.
  { intros Hlt. rewrite Hmean, (calc_mean_short (Z.of_nat 5) st Hlt) in Hsma.
    discriminate. }
  pose proof (length_filter_le notna (prep_value <$> win)) as Hle.
  rewrite length_fmap in Hle.
  pose proof (length_drop adj (length adj - 5)) as Hdrop. fold win in Hdrop.
  split; [lia|].
  assert (Forall (λ x, notna x = true) (prep_value <$> win)) as Hall
    by (apply filter_length_all; rewrite length_fmap; lia).
  apply Forall_fmap in Hall. eapply Forall_impl; [exact Hall|].
  intros x Hx. by apply prep_value_present.
Qed.

Lemma signal_needs_five_closes_witness :
  5 ≤ length closes_example
  ∧ Forall (λ x, is_nan x = false)
      (drop (length closes_example - 5) closes_example).
Proof.
  apply (signal_needs_five_closes NoFill "T" 1%positive heap_example
           (price_frame closes_example) closes_example analysis_example
           (analyze_stock NoFill "T" 1%positive heap_example).2).
  - reflexivity.
  - reflexivity.
  - vm_compute. reflexivity.
  - reflexivity.
Defined.

(** X8. On a price column without missing values the two defaults of
    [pct_change] agree: the run of [analyze_stock] is the same under the
    forward fill of pandas before 3.0 and without it. *)
Theorem fill_method_irrelevant ticker l (h : gmap loc DataFrame) df adj :
  h !! l = Some df →
  columns df !! "Adj Close" = Some adj →
  Forall (λ x, is_nan x = false) adj →
  analyze_stock Pad ticker l h = analyze_stock NoFill ticker l h.
Proof.
  intros Hl Hadj Hpresent.
  rewrite !(analyze_stock_run _ ticker l h df adj) by done.
  assert (returns_of Pad adj = returns_of NoFill adj) as Hret.
  { unfold returns_of, pct_change, filled, ffill.
    by rewrite ffill_from_present. }
  unfold analysis_of, analysed_frame. by rewrite Hret.
Qed.

Lemma fill_method_irrelevant_witness :
  analyze_stock Pad "T" 1%positive heap_example
  = analyze_stock NoFill "T" 1%positive heap_example.
Proof.
  apply (fill_method_irrelevant "T" 1%positive heap_example
           (price_frame closes_example) closes_example).
  - reflexivity.
  - reflexivity.
  - repeat constructor.
Defined.

(** X9. [analyze_stock] keeps a frame well formed: when every column has a
    value per row of the index before the call, so it is after it, the two
    columns that are written having the length of the price column. *)
Theorem analyze_stock_well_formed fm ticker l (h : gmap loc DataFrame) df :
  h !! l = Some df →
  well_formed df →
  ∃ df', (analyze_stock fm ticker l h).2 !! l = Some df' ∧ well_formed df'.
Proof.
  intros Hl Hwf.
  destruct (columns df !! "Adj Close") as [adj|] eqn:Hadj.
  - rewrite (analyze_stock_run fm ticker l h df adj) by done. cbn.
    exists (analysed_frame fm df adj). split; [apply lookup_insert_eq|].
    pose proof (Hwf _ _ Hadj) as Hlen.
    intros c s. cbn.
    destruct (decide (c = "SMA_5")) as [->|Hc1].
    { rewrite lookup_insert_eq. intros [= <-].
      by rewrite length_rolling_mean. }
    rewrite lookup_insert_ne by done.
    destruct (decide (c = "Daily Return %")) as [->|Hc2].
    { rewrite lookup_insert_eq. intros [= <-].
      by rewrite length_returns_of. }
    rewrite lookup_insert_ne by done. apply Hwf.
  - rewrite (analyze_stock_no_price fm ticker l h df) by done. cbn.
    by exists df.
Qed.

Lemma price_frame_well_formed (closes : Series) : well_formed (price_frame closes).
Proof.
  intros c s. unfold price_frame. cbn.
  intros [_ <-]%lookup_singleton_Some.
  by rewrite length_fmap, length_seq.
Qed.

Lemma analyze_stock_well_formed_witness :
  ∃ df',
    (analyze_stock NoFill "T" 1%positive heap_example).2 !! 1%positive = Some df'
    ∧ well_formed df'.
Proof.
  apply (analyze_stock_well_formed NoFill "T" 1%positive heap_example
           (price_frame closes_example)).
  - reflexivity.
  - apply price_frame_well_formed.
Defined.

(** X10. In the analysed frame the return of a row whose close and previous
    close are present is the change between the two in percent,
    (close / previous - 1) * 100. *)
Theorem daily_return_column fm ticker l (h : gmap loc DataFrame) df adj i p c :
  h !! l = Some df →
  columns df !! "Adj Close" = Some adj →
  adj !! i = Some p →
  adj !! S i = Some c →
  is_nan p = false →
  is_nan c = false →
  ∃ df' returns,
    (analyze_stock fm ticker l h).2 !! l = Some df'
    ∧ columns df' !! "Daily Return %" = Some returns
    ∧ returns !! S i = Some ((c / p - 1) * 100)%float.
Proof.
  intros Hl Hadj Hp Hc Hnp Hnc.
  exists (analysed_frame fm df adj), (returns_of fm adj).
  rewrite (analyze_stock_run fm ticker l h df adj) by done. cbn.
  split; [apply lookup_insert_eq|].
  split; [by rewrite lookup_insert_ne, lookup_insert_eq|].
  by apply returns_of_present.
Qed.

Lemma daily_return_column_witness :
  ∃ df' returns,
    (analyze_stock NoFill "T" 1%positive heap_example).2 !! 1%positive = Some df'
    ∧ columns df' !! "Daily Return %" = Some returns
    ∧ returns !! 2 = Some ((9 / 11 - 1) * 100)%float.
Proof.
  apply (daily_return_column NoFill "T" 1%positive heap_example
           (price_frame closes_example) closes_example 1 11%float 9%float).
  - reflexivity.
  - reflexivity.
  - reflexivity.
  - reflexivity.
  - reflexivity.
  - reflexivity.
Defined.

(** ** [main]: which runs complete, and what they leave *)

Section MainRuns.

Variable fm : fill_method.
Variable raw_data : gmap string loc.

Implicit Types (h : gmap loc DataFrame) (l : loc) (df : DataFrame).

Lemma frame_error_None df :
  frame_error df = None ↔ is_Some (columns df !! "Adj Close") ∧ index df ≠ [].
Proof.
  unfold frame_error.
  destruct (columns df !! "Adj Close") as [adj|]; destruct (index df);
    split; try done.
  - by intros [_ ?].
  - by intros [[? ?] _].
  - by intros [[? ?] _].
Qed.

Lemma first_error_mono h h' tickers :
  raw_valid raw_data h → h ⊆ h' →
  first_error raw_data h' tickers = first_error raw_data h tickers.
Proof.
  intros Hv Hsub. induction tickers as [|t ts IH]; cbn; [done|].
  destruct (raw_data !! t) as [l|] eqn:Hraw; [|done].
  destruct (Hv t l Hraw) as [df Hdf].
  by rewrite Hdf, (lookup_weaken _ _ _ _ Hdf Hsub), IH.
Qed.

Lemma first_error_None h tickers :
  first_error raw_data h tickers = None
  ↔ ∀ t l, t ∈ tickers → raw_data !! t = Some l →
           ∃ df, h !! l = Some df ∧ frame_error df = None.
Proof.
  induction tickers as [|t ts IH]; cbn.
  { split; [|done]. intros _ t l Hin. by apply elem_of_nil in Hin. }
  destruct (raw_data !! t) as [l|] eqn:Hraw.
  - destruct (h !! l) as [df|] eqn:Hl.
    + destruct (frame_error df) as [e|] eqn:He.
      * split; [done|]. intros Hall.
        destruct (Hall t l) as (df' & Hdf' & He'); [left|done|]. congruence.
      * rewrite IH. split.
        -- intros Hall t' l' [->|Hin]%elem_of_cons Hraw'; [|by apply (Hall t' l')].
           exists df. split; congruence.
        -- intros Hall t' l' Hin. apply (Hall t' l'). by right.
    + split; [done|]. intros Hall.
      destruct (Hall t l) as (df' & Hdf' & _); [left|done|]. congruence.
  - rewrite IH. split.
    + intros Hall t' l' [->|Hin]%elem_of_cons Hraw'; [congruence|by apply (Hall t' l')].
    + intros Hall t' l' Hin. apply (Hall t' l'). by right.
Qed.

(** The loop ends with the first exception it meets, and with the analyses
    of all the tickers that have data when it meets none. *)
Lemma analyze_all_outcome tickers acc h :
  raw_valid raw_data h →
  (analyze_all fm raw_data tickers acc h).1
  = match first_error raw_data h tickers with
    | Some e => Raise e
    | None => Ok (acc ++ omap (fetched_analysis fm raw_data h) tickers)
    end.
Proof.
  revert acc h. induction tickers as [|t ts IH]; intros acc h Hv.
  { cbn. by rewrite app_nil_r. }
  cbn [first_error omap list_omap].
  destruct (raw_data !! t) as [l|] eqn:Hraw.
  - destruct (h !! l) as [df|] eqn:Hl;
      [|by rewrite (analyze_all_dangling fm raw_data t ts acc h l)].
    rewrite (analyze_all_step fm raw_data t ts acc h l df) by done.
    unfold fetched_analysis at 1. rewrite Hraw. cbn. rewrite Hl. cbn.
    unfold frame_error.
    destruct (columns df !! "Adj Close") as [adj|]; [|done]. cbn.
    destruct (index df) as [|d ds]; [done|].
    pose proof (insert_fresh_subseteq h (analysed_frame fm df adj)) as Hsub.
    rewrite IH by by eapply raw_valid_mono.
    rewrite (first_error_mono h) by done.
    destruct (first_error raw_data h ts); [done|].
    rewrite <- app_assoc. cbn. do 3 f_equal.
    apply omap_pointwise. intros t'. by apply fetched_analysis_mono.
  - rewrite analyze_all_skip by done.
    unfold fetched_analysis at 1. rewrite Hraw. cbn. by apply IH.
Qed.

Lemma tickers_of_analyses h tickers :
  first_error raw_data h tickers = None →
  Ticker <$> omap (fetched_analysis fm raw_data h) tickers
  = List.filter (has_data raw_data) tickers.
Proof.
  induction tickers as [|t ts IH]; cbn; [done|].
  unfold has_data, fetched_analysis at 1.
  destruct (raw_data !! t) as [l|] eqn:Hraw; cbn; [|done].
  destruct (h !! l) as [df|]; [|done]. cbn. unfold frame_error.
  destruct (columns df !! "Adj Close") as [adj|]; [|done]. cbn.
  destruct (index df); [done|]. intros He. by rewrite IH.
Qed.

Lemma analyze_all_size tickers acc h res h' :
  analyze_all fm raw_data tickers acc h = (Ok res, h') →
  size h' + length acc = size h + length res.
Proof.
  revert acc h. induction tickers as [|t ts IH]; intros acc h Hrun.
  { cbn in Hrun. by injection Hrun as <- <-. }
  destruct (raw_data !! t) as [l|] eqn:Hraw.
  - destruct (h !! l) as [df|] eqn:Hl;
      [|by rewrite (analyze_all_dangling fm raw_data t ts acc h l) in Hrun].
    rewrite (analyze_all_step fm raw_data t ts acc h l df) in Hrun by done.
    destruct (columns df !! "Adj Close") as [adj|]; [|done]. cbn in Hrun.
    destruct (index df); [done|].
    apply IH in Hrun. rewrite length_app in Hrun. cbn in Hrun.
    rewrite map_size_insert_None in Hrun by apply fresh_loc_unused. lia.
  - rewrite analyze_all_skip in Hrun by done. by apply IH.
Qed.

Lemma analyze_all_no_data tickers acc h :
  Forall (λ t, raw_data !! t = None) tickers →
  analyze_all fm raw_data tickers acc h = (Ok acc, h).
Proof.
  induction 1 as [|t ts Ht _ IH]; [done|].
  by rewrite analyze_all_skip.
Qed.

End MainRuns.

(** The ranker returns normally on every list. *)
Lemma suggest_best_trade_Ok (analyses : list Analysis) :
  ∃ s, suggest_best_trade analyses = Ok s.
Proof.
  unfold suggest_best_trade.
  destruct (List.filter Trade_Signal analyses) as [|c cs] eqn:Hc; [by eexists|].
  assert (sorted sort_key tuple_lt true (c :: cs) ≡ₚ c :: cs) as Hperm.
  { rewrite sorted_reverse_foldr, <- (Permutation_rev _).
    apply foldr_insert_perm. }
  destruct (sorted sort_key tuple_lt true (c :: cs)); [|by eexists].
  by apply Permutation_nil_l in Hperm.
Qed.


Lemma main_result fm fetched raw_data (h : gmap loc DataFrame) :
  raw_valid raw_data h →
  match first_error raw_data h (take 20 fetched) with
  | Some e => (main fm fetched raw_data h).1 = Raise e
  | None =>
      ∃ best,
        (main fm fetched raw_data h).1
        = Ok (omap (fetched_analysis fm raw_data h) (take 20 fetched), best)
  end.
Proof.
  intros Hv.
  pose proof (analyze_all_outcome fm raw_data (take 20 fetched) [] h Hv) as Hout.
  unfold main, bind, lift, ret.
  destruct (analyze_all fm raw_data (take 20 fetched) [] h) as [r h1].
  cbn in Hout. subst r.
  destruct (first_error raw_data h (take 20 fetched)); [done|].
  destruct (suggest_best_trade_Ok
              (omap (fetched_analysis fm raw_data h) (take 20 fetched)))
    as [best ->].
  by exists best.
Qed.


Lemma raw_valid_single ticker l (df : DataFrame) :
  raw_valid {[ ticker := l ]} {[ l := df ]}.
Proof.
  intros t l' [_ <-]%lookup_singleton_Some. exists df. apply lookup_singleton_eq.
Qed.


(** X12. A run of [main] that completes reports one analysis per ticker
    among the first twenty that has data, in the order of the ticker list
    and under the name of its ticker; tickers without data are skipped, and
    there are twenty analyses at most. *)
Theorem main_analysed_tickers fm fetched raw_data (h h' : gmap loc DataFrame)
    all best :
  raw_valid raw_data h →
  main fm fetched raw_data h = (Ok (all, best), h') →
  Ticker <$> all = List.filter (has_data raw_data) (take 20 fetched)
  ∧ length all ≤ 20.
Proof.
  intros Hv Hmain.
  pose proof (main_result fm fetched raw_data h Hv) as Hres.
  rewrite Hmain in Hres. cbn in Hres.
  destruct (first_error raw_data h (take 20 fetched)) eqn:Herr; [done|].
  destruct Hres as [best' [= -> _]].
  assert (Ticker <$> omap (fetched_analysis fm raw_data h) (take 20 fetched)
          = List.filter (has_data raw_data) (take 20 fetched)) as Hnames
    by by apply tickers_of_analyses.
  split; [done|].
  rewrite <- (length_fmap Ticker), Hnames.
  pose proof (length_filter_le (has_data raw_data) (take 20 fetched)).
  pose proof (firstn_le_length 20 fetched). lia.
Qed.

Lemma main_analysed_tickers_witness :
  Ticker <$> [analysis_short]
  = List.filter (has_data {[ "S" := 1%positive ]}) (take 20 ["Q"; "S"])
  ∧ length [analysis_short] ≤ 20.
Proof.
  apply (main_analysed_tickers NoFill ["Q"; "S"] {[ "S" := 1%positive ]}
           heap_short
           (main NoFill ["Q"; "S"] {[ "S" := 1%positive ]} heap_short).2
           [analysis_short] NoCandidate).
  - apply raw_valid_single.
  - vm_compute. reflexivity.
Defined.

(** X13. A run of [main] that completes leaves one new frame in the store
    per analysis, the analysed copy; the frames it found are still there. *)
Theorem main_store_size fm fetched raw_data (h h' : gmap loc DataFrame) all best :
  main fm fetched raw_data h = (Ok (all, best), h') →
  size h' = size h + length all ∧ h ⊆ h'.
Proof.
  intros Hmain. split.
  - unfold main, bind, lift, ret in Hmain.
    destruct (analyze_all fm raw_data (take 20 fetched) [] h) as [[res|e] h1]
      eqn:Hrun; [|done].
    apply analyze_all_size in Hrun. cbn in Hrun.
    destruct (suggest_best_trade res); [|done].
    injection Hmain as <- _ <-. lia.
  - pose proof (main_grows fm raw_data fetched h) as Hsub.
    by rewrite Hmain in Hsub.
Qed.

Lemma main_store_size_witness :
  size (main NoFill ["Q"; "S"] {[ "S" := 1%positive ]} heap_short).2
  = size heap_short + length [analysis_short]
  ∧ heap_short ⊆ (main NoFill ["Q"; "S"] {[ "S" := 1%positive ]} heap_short).2.
Proof.
  apply (main_store_size NoFill ["Q"; "S"] {[ "S" := 1%positive ]} heap_short
           (main NoFill ["Q"; "S"] {[ "S" := 1%positive ]} heap_short).2
           [analysis_short] NoCandidate).
  vm_compute. reflexivity.
Defined.

(** X14. When none of the first twenty tickers has data, the run completes
    with no analysis, reports that there is no candidate and leaves the
    store as it was. *)
Theorem main_no_data fm fetched raw_data (h : gmap loc DataFrame) :
  (∀ t, t ∈ take 20 fetched → raw_data !! t = None) →
  main fm fetched raw_data h = (Ok ([], NoCandidate), h).
Proof.
  intros Hnone. unfold main.
  rewrite (bind_Ok _ _ h [] h); [done|].
  apply analyze_all_no_data. by apply Forall_forall.
Qed.

Lemma main_no_data_witness :
  main NoFill ["A"; "B"] ∅ heap_example = (Ok ([], NoCandidate), heap_example).
Proof.
  apply (main_no_data NoFill ["A"; "B"] ∅ heap_example).
  intros t _. apply lookup_empty.
Defined.

(** ** [plot_stock] and the ranking *)

(** X15. [plot_stock] reads the column "SMA_5" that [analyze_stock] writes:
    on a frame that has the price column and has not been analysed it raises
    [KeyError] for "SMA_5", and on the frame as [analyze_stock] leaves it it
    returns normally and leaves the store alone. *)
Theorem plot_stock_needs_analysis fm ticker l (h : gmap loc DataFrame) df adj :
  h !! l = Some df →
  columns df !! "Adj Close" = Some adj →
  columns df !! "SMA_5" = None →
  plot_stock ticker l h = (Raise (KeyError "SMA_5"), h)
  ∧ plot_stock ticker l (analyze_stock fm ticker l h).2
    = (Ok tt, (analyze_stock fm ticker l h).2).
Proof.
  intros Hl Hadj Hsma. split.
  - unfold plot_stock.
    rewrite (bind_Ok _ _ h adj h) by by eapply df_getitem_Ok.
    rewrite (bind_Raise _ _ h (KeyError "SMA_5") h); [done|].
    unfold df_getitem, bind, deref, raise. by rewrite Hl, Hsma.
  - rewrite (analyze_stock_run fm ticker l h df adj) by done. cbn.
    apply (plot_stock_analysed fm ticker l _ df adj); [|done].
    apply lookup_insert_eq.
Qed.

Lemma plot_stock_needs_analysis_witness :
  plot_stock "T" 1%positive heap_example = (Raise (KeyError "SMA_5"), heap_example)
  ∧ plot_stock "T" 1%positive (analyze_stock NoFill "T" 1%positive heap_example).2
    = (Ok tt, (analyze_stock NoFill "T" 1%positive heap_example).2).
Proof.
  apply (plot_stock_needs_analysis NoFill "T" 1%positive heap_example
           (price_frame closes_example) closes_example).
  - reflexivity.
  - reflexivity.
  - reflexivity.
Defined.

(** X16. [suggest_best_trade] raises on no list of records, whatever their
    keys, missing returns included: it reports that there is no candidate
    exactly when no record carries a signal, and a candidate it reports is a
    record of the list that carries a signal. *)
Theorem ranker_never_raises (analyses : list Analysis) :
  ∃ s,
    suggest_best_trade analyses = Ok s
    ∧ (s = NoCandidate ↔ List.filter Trade_Signal analyses = [])
    ∧ (∀ b, s = BestCandidate b → b ∈ analyses ∧ Trade_Signal b = true).
Proof.
  unfold suggest_best_trade.
  destruct (List.filter Trade_Signal analyses) as [|c cs] eqn:Hc.
  { exists NoCandidate. by repeat split. }
  assert (sorted sort_key tuple_lt true (c :: cs) ≡ₚ c :: cs) as Hperm.
  { rewrite sorted_reverse_foldr, <- (Permutation_rev _).
    apply foldr_insert_perm. }
  destruct (sorted sort_key tuple_lt true (c :: cs)) as [|b rest].
  { by apply Permutation_nil_l in Hperm. }
  exists (BestCandidate b). split; [done|]. split; [done|].
  intros b' [= <-]. apply filter_signal_elem_of.
  rewrite Hc, <- Hperm. by left.
Qed.

(** X17. [sorted] returns the records it was given, each as often as in the
    input, in either direction and whatever the comparison answers. *)
Theorem sorted_permutation {A K} (key : A → K) (lt : K → K → bool)
    (reverse : bool) (l : list A) :
  sorted key lt reverse l ≡ₚ l.
Proof.
  unfold sorted. cbn zeta. destruct reverse.
  - rewrite stable_sort_rev, <- (Permutation_rev _). apply foldr_insert_perm.
  - rewrite <- (rev_involutive l) at 1.
    rewrite stable_sort_rev, foldr_insert_perm. symmetry. apply Permutation_rev.
Qed.

Lemma sorted_stable_witness :
  List.filter (λ c, key_eq (sort_key c) (sort_key rec_B))
    (sorted sort_key tuple_lt true [rec_A; rec_B; rec_D])
  = List.filter (λ c, key_eq (sort_key c) (sort_key rec_B))
      [rec_A; rec_B; rec_D].
Proof.
  apply (sorted_stable [rec_A; rec_B; rec_D] (sort_key rec_B)).
  repeat constructor.
Defined.

(** X19. Python's [<] on the key tuples is the lexicographic order: the
    trend scores decide when they differ and the last returns when the
    scores are equal, a missing return being below and above nothing. *)
Theorem tuple_lt_lexicographic (k1 k2 : Z * float) :
  tuple_lt k1 k2 = key_lt k1 k2
  ∧ (is_nan k1.2 = true ∨ is_nan k2.2 = true →
     tuple_lt k1 k2 = (k1.1 <? k2.1)%Z).
Proof.
  rewrite tuple_lt_alt. unfold key_lt. split.
  - destruct (Z.eqb_spec k1.1 k2.1), (Z.ltb_spec k1.1 k2.1); cbn; try done; lia.
  - intros Hnan.
    assert ((k1.2 <? k2.2)%float = false) as Hlt.
    { destruct (k1.2 <? k2.2)%float eqn:E; [|done].
      apply ltb_not_nan in E as [E1 E2]. destruct Hnan; congruence. }
    rewrite Hlt.
    destruct (Z.eqb_spec k1.1 k2.1), (Z.ltb_spec k1.1 k2.1); try done; lia.
Qed.

(** X20. Analysing a copy changes nothing in the result: every analysis that
    a completed run of [main] reports is the one [analyze_stock] returns on
    the fetched frame of its ticker itself, and the suggestion of the run is
    the one the ranker makes from the reported analyses. *)
Theorem main_reports_analyses fm fetched raw_data (h h' : gmap loc DataFrame)
    all best :
  raw_valid raw_data h →
  main fm fetched raw_data h = (Ok (all, best), h') →
  Forall (λ a, ∃ l, Ticker a ∈ take 20 fetched
                    ∧ raw_data !! Ticker a = Some l
                    ∧ (analyze_stock fm (Ticker a) l h).1 = Ok a) all
  ∧ suggest_best_trade all = Ok best.
Proof.
  intros Hv Hmain.
  pose proof (main_result fm fetched raw_data h Hv) as Hres.
  rewrite Hmain in Hres. cbn in Hres.
  destruct (first_error raw_data h (take 20 fetched)) eqn:Herr; [done|].
  destruct Hres as [best' [= Hall _]].
  apply main_Ok in Hmain as [_ Hbest]; [|done]. split; [|done].
  rewrite Hall. apply Forall_forall. intros a (t & Hin & Ht)%list_elem_of_omap.
  destruct (proj1 (first_error_None raw_data h (take 20 fetched)) Herr)
    with (t := t) (l := default 1%positive (raw_data !! t))
    as (df & Hdf & He); [done| |].
  { unfold fetched_analysis in Ht. by destruct (raw_data !! t). }
  unfold fetched_analysis in Ht.
  destruct (raw_data !! t) as [l|] eqn:Hraw; [|done]. cbn in *.
  rewrite Hdf in Ht. cbn in Ht. apply frame_error_None in He as [[adj Hadj] Hidx].
  rewrite Hadj in Ht. injection Ht as <-. cbn.
  exists l. split; [done|]. split; [done|].
  rewrite (analyze_stock_run fm t l h df adj) by done. cbn.
  by destruct (index df).
Qed.

Lemma main_reports_analyses_witness :
  Forall (λ a, ∃ l, Ticker a ∈ take 20 ["Q"; "S"]
                    ∧ ({[ "S" := 1%positive ]} : gmap string loc) !! Ticker a
                      = Some l
                    ∧ (analyze_stock NoFill (Ticker a) l heap_short).1 = Ok a)
    [analysis_short]
  ∧ suggest_best_trade [analysis_short] = Ok NoCandidate.
Proof.
  apply (main_reports_analyses NoFill ["Q"; "S"] {[ "S" := 1%positive ]}
           heap_short
           (main NoFill ["Q"; "S"] {[ "S" := 1%positive ]} heap_short).2
           [analysis_short] NoCandidate).
  - apply raw_valid_single.
  - vm_compute. reflexivity.
Defined.
